(** * The ctags prototype generator of arduino-cli ([package ctags])

    A shallow embedding of [CTagsParser.Parse] and of the passes it runs
    ([parseTag], [skipTagsWhere], [addPrototypes], [removeDefinedProtypes],
    [skipDuplicates]), together with the properties its specification states.

    Go strings are byte sequences: they are embedded as [string] (one [ascii]
    per byte).  Go's [int] is embedded as [Z]; no length or index of this
    program comes near the 64-bit bounds, the one place where the width shows
    is [strconv.Atoi], whose clamping is written out.  A run-time panic (index
    or slice out of range) is the [None] of the option monad. *)

From Stdlib Require Import ZArith Ascii String.
From stdpp Require Import base option list strings gmap.

Local Open Scope Z_scope.

(** ** The Go standard library functions the parser calls *)

Module GoLib.

(** [len(s)] *)
Definition len (s : string) : Z := Z.of_nat (String.length s).

(** [strings.HasPrefix(s, prefix)] *)
Fixpoint HasPrefix (s prefix : string) : bool :=
  match prefix, s with
  | EmptyString, _ => true
  | String _ _, EmptyString => false
  | String a prefix', String b s' => Ascii.eqb a b && HasPrefix s' prefix'
  end.

(** [strings.Index(s, substr)]: the byte offset of the first occurrence, [-1]
    when there is none. *)
Fixpoint Index (s substr : string) {struct s} : Z :=
  if HasPrefix s substr then 0
  else match s with
       | EmptyString => -1
       | String _ s' => let i := Index s' substr in if i <? 0 then -1 else i + 1
       end.

(** [strings.LastIndex(s, substr)]: the offset of the last occurrence, or [-1]. *)
Fixpoint LastIndex (s substr : string) {struct s} : Z :=
  match s with
  | EmptyString => if HasPrefix s substr then 0 else -1
  | String _ s' =>
      let i := LastIndex s' substr in
      if 0 <=? i then i + 1 else if HasPrefix s substr then 0 else -1
  end.

(** [strings.Contains(s, substr)] is [Index(s, substr) >= 0]. *)
Definition Contains (s substr : string) : bool := 0 <=? Index s substr.

(** The slice expression [s[lo:hi]]; it panics unless [0 <= lo <= hi <= len(s)]. *)
Definition slice (s : string) (lo hi : Z) : option string :=
  if bool_decide (0 ≤ lo ∧ lo ≤ hi ∧ hi ≤ len s)
  then Some (String.substring (Z.to_nat lo) (Z.to_nat (hi - lo)) s)
  else None.

(** [s[:hi]] and [s[lo:]] *)
Definition sliceTo (s : string) (hi : Z) : option string := slice s 0 hi.
Definition sliceFrom (s : string) (lo : Z) : option string := slice s lo (len s).

(** [strings.Split(s, sep)] for a separator of one byte (the parser splits on
    a newline and on a tab): the pieces between the separators, in order; a
    string with [n] separators gives [n + 1] pieces. *)
Fixpoint Split (s : string) (sep : ascii) : list string :=
  match s with
  | EmptyString => [EmptyString]
  | String c s' =>
      if Ascii.eqb c sep then EmptyString :: Split s' sep
      else match Split s' sep with
           | piece :: pieces => String c piece :: pieces
           | [] => [String c EmptyString]
           end
  end.

(** [strings.Replace(s, old, new, -1)] for a non-empty [old]: every
    non-overlapping occurrence of [old], scanning from the left, becomes [new].
    [skip] counts the bytes of a matched [old] still to be dropped. *)
Fixpoint replaceFrom (skip : nat) (s old new : string) : string :=
  match s with
  | EmptyString => EmptyString
  | String c s' =>
      match skip with
      | S k => replaceFrom k s' old new
      | O =>
          if HasPrefix s old
          then new +:+ replaceFrom (String.length old - 1)%nat s' old new
          else String c (replaceFrom 0 s' old new)
      end
  end.

Definition Replace (s old new : string) : string := replaceFrom 0 s old new.

(** *** [strings.TrimSpace]

    The white space of [unicode.IsSpace], as the UTF-8 byte sequences that
    encode it: the six ASCII characters, U+0085, U+00A0, U+1680, U+2000 to
    U+200A, U+2028, U+2029, U+202F, U+205F and U+3000.  Only the shortest
    encoding of a rune is valid, so a string starts (ends) with a white-space
    rune exactly when it starts (ends) with one of these sequences. *)
Definition bytes (codes : list Z) : string :=
  foldr (λ n s, String (ascii_of_nat (Z.to_nat n)) s) EmptyString codes.

Definition spaceRunes : list string :=
  (bytes <$> [[9]; [10]; [11]; [12]; [13]; [32]; [194; 133]; [194; 160]; [225; 154; 128]])
  ++ ((λ n, bytes [226; 128; n]) <$> seqZ 128 11)
  ++ (bytes <$> [[226; 128; 168]; [226; 128; 169]; [226; 128; 175];
                 [226; 129; 159]; [227; 128; 128]]).

(** the length of the sequence of [runes] that [s] starts with, if any *)
Fixpoint runePrefix (runes : list string) (s : string) : option nat :=
  match runes with
  | [] => None
  | r :: runes' => if HasPrefix s r then Some (String.length r) else runePrefix runes' s
  end.

Definition dropBytes (n : nat) (s : string) : string :=
  String.substring n (String.length s - n)%nat s.

(** strip leading [runes]; each round removes at least one byte, so
    [String.length s] rounds are enough ([trimRunes_done] below) *)
Fixpoint trimRunes (rounds : nat) (runes : list string) (s : string) : string :=
  match rounds with
  | O => s
  | S rounds' =>
      match runePrefix runes s with
      | Some n => trimRunes rounds' runes (dropBytes n s)
      | None => s
      end
  end.

Definition TrimLeftSpace (s : string) : string :=
  trimRunes (String.length s) spaceRunes s.

Definition TrimRightSpace (s : string) : string :=
  String.rev (trimRunes (String.length s) (String.rev <$> spaceRunes) (String.rev s)).

Definition TrimSpace (s : string) : string := TrimRightSpace (TrimLeftSpace s).

(** *** [strconv.Atoi] on a 64-bit platform

    [Atoi(s)] is [ParseInt(s, 10, 0)]: an optional sign, then at least one
    decimal digit and nothing else.  A byte that is no digit gives
    [(0, ErrSyntax)].  A value that leaves the range gives the nearest bound
    together with [ErrRange], and [ParseUint] reports that as soon as the
    running value overflows 64 bits, before it looks at the bytes that follow. *)
Inductive NumError : Set := ErrSyntax | ErrRange.

Global Instance NumError_eq_dec : EqDecision NumError.
Proof. solve_decision. Defined.

Definition intSize : Z := 64.
Definition maxUint : Z := 2 ^ intSize - 1.

Definition digit (c : ascii) : option Z :=
  let n := Z.of_nat (nat_of_ascii c) in
  if (48 <=? n) && (n <=? 57) then Some (n - 48) else None.

Fixpoint parseUintFrom (n : Z) (s : string) : Z * option NumError :=
  match s with
  | EmptyString => (n, None)
  | String c s' =>
      match digit c with
      | None => (0, Some ErrSyntax)
      | Some d =>
          let n1 := n * 10 + d in
          if maxUint <? n1 then (maxUint, Some ErrRange) else parseUintFrom n1 s'
      end
  end.

Definition ParseUint (s : string) : Z * option NumError :=
  match s with
  | EmptyString => (0, Some ErrSyntax)
  | _ => parseUintFrom 0 s
  end.

Definition ParseInt (s : string) : Z * option NumError :=
  match s with
  | EmptyString => (0, Some ErrSyntax)
  | String c s' =>
      let neg := Ascii.eqb c "-" in
      let digits := if Ascii.eqb c "+" || neg then s' else s in
      match ParseUint digits with
      | (_, Some ErrSyntax) => (0, Some ErrSyntax)
      | (un, _) =>
          let cutoff := 2 ^ (intSize - 1) in
          if negb neg && (cutoff <=? un) then (cutoff - 1, Some ErrRange)
          else if neg && (cutoff <? un) then (- cutoff, Some ErrRange)
          else (if neg then - un else un, None)
      end
  end.

Definition Atoi (s : string) : Z * option NumError := ParseInt s.

End GoLib.

Import GoLib.

(** ** The data model *)

Definition KIND_PROTOTYPE : string := "prototype".
Definition KIND_FUNCTION : string := "function".
Definition TEMPLATE : string := "template".
Definition STATIC : string := "static".

Definition tab : ascii := "009"%char.
Definition newline : ascii := "010"%char.

(** Go's [m[k]] on a [map[string]bool]: a key that is absent reads [false]. *)
Definition mapIndex (m : gmap string bool) (k : string) : bool := default false (m !! k).

Definition KNOWN_TAG_KINDS : gmap string bool :=
  <["prototype" := true]> (<["function" := true]> ∅).

(** Modelled from the spec: the struct [types.CTag] is declared in a package
    that is not among the files at hand (the Tag of the data model).  Its
    fields are the ones [parseTag] and the passes read and write, with the
    types they are used at. *)
Record CTag : Set := mkCTag {
  FunctionName : string;
  Kind : string;
  Line : Z;
  Code : string;
  Class : string;
  Struct : string;
  Namespace : string;
  Filename : string;
  Typeref : string;
  SkipMe : bool;
  Signature : string;
  Prototype : string;
  PrototypeModifiers : string
}.

(** [&types.CTag{}]: every field at its zero value *)
Definition zeroTag : CTag := mkCTag "" "" 0 "" "" "" "" "" "" false "" "" "".

(** Field assignments [tag.F = v]. *)
Definition withFunctionName (v : string) (t : CTag) : CTag :=
  mkCTag v (Kind t) (Line t) (Code t) (Class t) (Struct t) (Namespace t) (Filename t)
    (Typeref t) (SkipMe t) (Signature t) (Prototype t) (PrototypeModifiers t).
Definition withKind (v : string) (t : CTag) : CTag :=
  mkCTag (FunctionName t) v (Line t) (Code t) (Class t) (Struct t) (Namespace t) (Filename t)
    (Typeref t) (SkipMe t) (Signature t) (Prototype t) (PrototypeModifiers t).
Definition withLine (v : Z) (t : CTag) : CTag :=
  mkCTag (FunctionName t) (Kind t) v (Code t) (Class t) (Struct t) (Namespace t) (Filename t)
    (Typeref t) (SkipMe t) (Signature t) (Prototype t) (PrototypeModifiers t).
Definition withCode (v : string) (t : CTag) : CTag :=
  mkCTag (FunctionName t) (Kind t) (Line t) v (Class t) (Struct t) (Namespace t) (Filename t)
    (Typeref t) (SkipMe t) (Signature t) (Prototype t) (PrototypeModifiers t).
Definition withClass (v : string) (t : CTag) : CTag :=
  mkCTag (FunctionName t) (Kind t) (Line t) (Code t) v (Struct t) (Namespace t) (Filename t)
    (Typeref t) (SkipMe t) (Signature t) (Prototype t) (PrototypeModifiers t).
Definition withStruct (v : string) (t : CTag) : CTag :=
  mkCTag (FunctionName t) (Kind t) (Line t) (Code t) (Class t) v (Namespace t) (Filename t)
    (Typeref t) (SkipMe t) (Signature t) (Prototype t) (PrototypeModifiers t).
Definition withNamespace (v : string) (t : CTag) : CTag :=
  mkCTag (FunctionName t) (Kind t) (Line t) (Code t) (Class t) (Struct t) v (Filename t)
    (Typeref t) (SkipMe t) (Signature t) (Prototype t) (PrototypeModifiers t).
Definition withFilename (v : string) (t : CTag) : CTag :=
  mkCTag (FunctionName t) (Kind t) (Line t) (Code t) (Class t) (Struct t) (Namespace t) v
    (Typeref t) (SkipMe t) (Signature t) (Prototype t) (PrototypeModifiers t).
Definition withTyperef (v : string) (t : CTag) : CTag :=
  mkCTag (FunctionName t) (Kind t) (Line t) (Code t) (Class t) (Struct t) (Namespace t) (Filename t)
    v (SkipMe t) (Signature t) (Prototype t) (PrototypeModifiers t).
Definition withSkipMe (v : bool) (t : CTag) : CTag :=
  mkCTag (FunctionName t) (Kind t) (Line t) (Code t) (Class t) (Struct t) (Namespace t) (Filename t)
    (Typeref t) v (Signature t) (Prototype t) (PrototypeModifiers t).
Definition withSignature (v : string) (t : CTag) : CTag :=
  mkCTag (FunctionName t) (Kind t) (Line t) (Code t) (Class t) (Struct t) (Namespace t) (Filename t)
    (Typeref t) (SkipMe t) v (Prototype t) (PrototypeModifiers t).
Definition withPrototype (v : string) (t : CTag) : CTag :=
  mkCTag (FunctionName t) (Kind t) (Line t) (Code t) (Class t) (Struct t) (Namespace t) (Filename t)
    (Typeref t) (SkipMe t) (Signature t) v (PrototypeModifiers t).
Definition withPrototypeModifiers (v : string) (t : CTag) : CTag :=
  mkCTag (FunctionName t) (Kind t) (Line t) (Code t) (Class t) (Struct t) (Namespace t) (Filename t)
    (Typeref t) (SkipMe t) (Signature t) (Prototype t) v.

(** Modelled from the spec: [paths.Path] belongs to a library outside these
    files; the parser only stores the reference to the main sketch file. *)
Definition Path : Set := string.

(** The parser state: [p.tags] and [p.mainFile]. *)
Record CTagsParser : Set := mkParser { tags : list CTag; mainFile : Path }.

(** ** The tag decoder *)

(** A monadic left fold: the body of a [for ... range] loop that may panic. *)
Fixpoint foldM {A S : Type} (body : S → A → option S) (st : S) (l : list A) : option S :=
  match l with
  | [] => Some st
  | x :: l' => st' ← body st x; foldM body st' l'
  end.

(** One round of the loop of [parseTag] over the fields after the file name;
    the state is the tag under construction and the local [returntype]. *)
Definition parseField (st : CTag * string) (part : string) : option (CTag * string) :=
  let '(tag, returntype) := st in
  if Contains part ":" then
    let colon := Index part ":" in
    field ← sliceTo part colon;
    rest ← sliceFrom part (colon + 1);
    let value := TrimSpace rest in
    Some (if String.eqb field "kind" then (withKind value tag, returntype)
          else if String.eqb field "line" then (withLine (Atoi value).1 tag, returntype)
          else if String.eqb field "typeref" then (withTyperef value tag, returntype)
          else if String.eqb field "signature" then (withSignature value tag, returntype)
          else if String.eqb field "returntype" then (tag, value)
          else if String.eqb field "class" then (withClass value tag, returntype)
          else if String.eqb field "struct" then (withStruct value tag, returntype)
          else if String.eqb field "namespace" then (withNamespace value tag, returntype)
          else (tag, returntype))
  else Some (tag, returntype).

(** [parts[2:]] on a slice of strings *)
Definition partsFrom (parts : list string) (lo : nat) : option (list string) :=
  if bool_decide (lo ≤ length parts)%nat then Some (drop lo parts) else None.

(** [parseTag]: one row of the ctags output becomes one tag.  Indexing
    [parts[1]] panics on a row without a tab, and so does the slice that cuts
    the code out when the closing marker stands before the end of the opening
    one.  The file name has each pair of backslashes replaced by a single
    backslash. *)
Definition parseTag (row : string) : option CTag :=
  let tag := zeroTag in
  let parts := Split row tab in
  name ← parts !! 0%nat;
  let tag := withFunctionName name tag in
  file ← parts !! 1%nat;
  let tag := withFilename (Replace file "\\" "\") tag in
  parts ← partsFrom parts 2;
  '(tag, returntype) ← foldM parseField (tag, "") parts;
  let tag := withPrototype (returntype +:+ " " +:+ FunctionName tag +:+ Signature tag +:+ ";") tag in
  if Contains row "/^" && Contains row "$/;" then
    code ← slice row (Index row "/^" + 2) (Index row "$/;");
    Some (withCode code tag)
  else Some tag.

Definition removeEmpty (rows : list string) : list string :=
  filter (λ row, 0 < len row) (TrimSpace <$> rows).

(** ** The filter predicates *)

Definition isHandled (tag : CTag) : bool :=
  if negb (String.eqb (Class tag) "") then false
  else if negb (String.eqb (Struct tag) "") then false
  else if negb (String.eqb (Namespace tag) "") then false
  else true.

Definition tagIsUnhandled (tag : CTag) : bool := negb (isHandled tag).

Definition tagIsUnknown (tag : CTag) : bool := negb (mapIndex KNOWN_TAG_KINDS (Kind tag)).

(** ** The stages of the pipeline *)

Inductive Stage : Set :=
  | KindFilter | ScopeFilter | Synthesizer | ShadowResolver | DuplicateResolver
  | ConsistencyFilter.

(** the stages in the order [Parse] runs them *)
Definition stages : list Stage :=
  [KindFilter; ScopeFilter; Synthesizer; ShadowResolver; DuplicateResolver;
   ConsistencyFilter].

(** ** The passes over the tags *)

Section Passes.

(** The two collaborators of the parser that live in another file of the
    package, taken as parameters.  [findTemplateMultiline] reads the source
    file of a template whose declaration spans several lines and returns its
    text; [prototypeAndCodeDontMatch] is the predicate of the consistency
    filter, a method of the parser that is given the tag and consults the
    main file.  Both are taken to return, and to read the tag they are given
    without writing to it, as [tagIsUnknown] and [tagIsUnhandled] do.

    [p.tags] holds one pointer for each tag and [parseTag] allocates a tag of
    its own for every row, so no two elements share a tag: a loop that assigns
    through the pointers is a map over the list. *)
Variable findTemplateMultiline : CTag → string.
Variable prototypeAndCodeDontMatch : Path → CTag → bool.

Definition withTags (ts : list CTag) (p : CTagsParser) : CTagsParser :=
  mkParser ts (mainFile p).
Definition withMainFile (f : Path) (p : CTagsParser) : CTagsParser :=
  mkParser (tags p) f.

Definition addPrototype (tag : CTag) : option CTag :=
  if Index (Prototype tag) TEMPLATE =? 0 then
    if Index (Code tag) TEMPLATE =? 0 then
      let code := Code tag in
      code ← (if Contains code "{" then sliceTo code (Index code "{")
              else sliceTo code (LastIndex code ")" + 1));
      Some (withPrototype (code +:+ ";") tag)
    else
      let code := findTemplateMultiline tag in
      Some (withPrototype (code +:+ ";") tag)
  else
    let tag := withPrototypeModifiers "" tag in
    let tag :=
      if Contains (Code tag) (STATIC +:+ " ")
      then withPrototypeModifiers (PrototypeModifiers tag +:+ " " +:+ STATIC) tag
      else tag in
    Some (withPrototypeModifiers (TrimSpace (PrototypeModifiers tag)) tag).

Definition addPrototypes (p : CTagsParser) : option CTagsParser :=
  ts ← mapM (λ tag, if negb (SkipMe tag) then addPrototype tag else Some tag) (tags p);
  Some (withTags ts p).

(** the first loop of [removeDefinedProtypes] *)
Definition collectPrototypes (ts : list CTag) : gmap string bool :=
  foldl (λ definedPrototypes tag,
           if String.eqb (Kind tag) KIND_PROTOTYPE
           then <[Prototype tag := true]> definedPrototypes
           else definedPrototypes) ∅ ts.

Definition removeDefinedProtypes (p : CTagsParser) : CTagsParser :=
  let definedPrototypes := collectPrototypes (tags p) in
  withTags ((λ tag, if mapIndex definedPrototypes (Prototype tag)
                    then withSkipMe true tag else tag) <$> tags p) p.

(** the loop of [skipDuplicates], from a given content of [definedPrototypes] *)
Fixpoint skipDuplicatesFrom (definedPrototypes : gmap string bool) (ts : list CTag)
  : list CTag :=
  match ts with
  | [] => []
  | tag :: rest =>
      if negb (mapIndex definedPrototypes (Prototype tag)) && negb (SkipMe tag)
      then tag :: skipDuplicatesFrom (<[Prototype tag := true]> definedPrototypes) rest
      else withSkipMe true tag :: skipDuplicatesFrom definedPrototypes rest
  end.

Definition skipDuplicates (p : CTagsParser) : CTagsParser :=
  withTags (skipDuplicatesFrom ∅ (tags p)) p.

Definition skipFuncType : Set := CTag → bool.

Definition skipTagsWhere (skipFunc : skipFuncType) (p : CTagsParser) : CTagsParser :=
  withTags ((λ tag, if negb (SkipMe tag) then withSkipMe (skipFunc tag) tag else tag)
              <$> tags p) p.

(** [Parse]: the result is what the method returns together with the parser
    it leaves behind. *)
Definition Parse (p : CTagsParser) (ctagsOutput : string) (mainFile' : Path)
  : option (list CTag * CTagsParser) :=
  let rows := Split ctagsOutput newline in
  let rows := removeEmpty rows in
  let p := withMainFile mainFile' p in
  decoded ← mapM parseTag rows;
  let p := withTags (tags p ++ decoded) p in
  let p := skipTagsWhere tagIsUnknown p in
  let p := skipTagsWhere tagIsUnhandled p in
  p ← addPrototypes p;
  let p := removeDefinedProtypes p in
  let p := skipDuplicates p in
  let p := skipTagsWhere (prototypeAndCodeDontMatch (mainFile p)) p in
  Some (tags p, p).

Definition runStage (stage : Stage) (p : CTagsParser) : option CTagsParser :=
  match stage with
  | KindFilter => Some (skipTagsWhere tagIsUnknown p)
  | ScopeFilter => Some (skipTagsWhere tagIsUnhandled p)
  | Synthesizer => addPrototypes p
  | ShadowResolver => Some (removeDefinedProtypes p)
  | DuplicateResolver => Some (skipDuplicates p)
  | ConsistencyFilter => Some (skipTagsWhere (prototypeAndCodeDontMatch (mainFile p)) p)
  end.

Definition runStages (ss : list Stage) (p : CTagsParser) : option CTagsParser :=
  foldM (λ p stage, runStage stage p) p ss.

(** the decoding loop at the head of [Parse] *)
Definition decode (ctagsOutput : string) : option (list CTag) :=
  mapM parseTag (removeEmpty (Split ctagsOutput newline)).

End Passes.

(** ** Cutting a string at a byte

    [cut sep s] is the text before and the text after the first [sep] of [s],
    [cutLast sep s] the same around the last one.  They say in terms of
    concatenation what [Index], [LastIndex] and the slices compute with
    offsets. *)

Fixpoint hasByte (c : ascii) (s : string) : bool :=
  match s with
  | EmptyString => false
  | String a s' => Ascii.eqb c a || hasByte c s'
  end.

Fixpoint cut (sep : ascii) (s : string) : option (string * string) :=
  match s with
  | EmptyString => None
  | String a s' =>
      if Ascii.eqb sep a then Some (EmptyString, s')
      else match cut sep s' with
           | Some (k, v) => Some (String a k, v)
           | None => None
           end
  end.

Fixpoint cutLast (sep : ascii) (s : string) : option (string * string) :=
  match s with
  | EmptyString => None
  | String a s' =>
      match cutLast sep s' with
      | Some (k, v) => Some (String a k, v)
      | None => if Ascii.eqb sep a then Some (EmptyString, s') else None
      end
  end.

(** ** What the decoder computes

    The same decoding, told as the specification tells it: a field of the row
    is a pair [key:value] cut at its first colon, the value trimmed; the last
    field with a given key is the one that counts; a key no field has leaves
    its default. *)

Definition fieldOf (key part : string) : option string :=
  match cut ":" part with
  | Some (k, v) => if String.eqb k key then Some (TrimSpace v) else None
  | None => None
  end.

Definition lastValue (key : string) (fields : list string) : option string :=
  last (omap (fieldOf key) fields).

(** the [switch] of [parseTag] on a field name *)
Definition assign (field value : string) (st : CTag * string) : CTag * string :=
  let '(tag, returntype) := st in
  if String.eqb field "kind" then (withKind value tag, returntype)
  else if String.eqb field "line" then (withLine (Atoi value).1 tag, returntype)
  else if String.eqb field "typeref" then (withTyperef value tag, returntype)
  else if String.eqb field "signature" then (withSignature value tag, returntype)
  else if String.eqb field "returntype" then (tag, value)
  else if String.eqb field "class" then (withClass value tag, returntype)
  else if String.eqb field "struct" then (withStruct value tag, returntype)
  else if String.eqb field "namespace" then (withNamespace value tag, returntype)
  else (tag, returntype).

Definition fieldStep (st : CTag * string) (part : string) : CTag * string :=
  match cut ":" part with
  | Some (k, v) => assign k (TrimSpace v) st
  | None => st
  end.

(** the code between the markers, when the row has both *)
Definition rowCode (row : string) : option string :=
  if Contains row "/^" && Contains row "$/;"
  then slice row (Index row "/^" + 2) (Index row "$/;")
  else Some "".

(** the rows on which [parseTag] returns *)
Definition rowDecodable (row : string) : bool :=
  bool_decide (2 ≤ length (Split row tab))%nat
  && (negb (Contains row "/^" && Contains row "$/;")
      || (Index row "/^" + 2 <=? Index row "$/;")).

Definition decodeSpec (row : string) : CTag :=
  let parts := Split row tab in
  let name := default "" (parts !! 0%nat) in
  let fields := drop 2 parts in
  let value key := default "" (lastValue key fields) in
  {| FunctionName := name;
     Kind := value "kind";
     Line := default 0 ((λ v, (Atoi v).1) <$> lastValue "line" fields);
     Code := default "" (rowCode row);
     Class := value "class";
     Struct := value "struct";
     Namespace := value "namespace";
     Filename := Replace (default "" (parts !! 1%nat)) "\\" "\";
     Typeref := value "typeref";
     SkipMe := false;
     Signature := value "signature";
     Prototype := value "returntype" +:+ " " +:+ name +:+ value "signature" +:+ ";";
     PrototypeModifiers := "" |}.

(** ** What the stages may do

    The vocabulary of the properties below. *)

(** The part of a tag that the decoder fills and no pass writes: the tag with
    the three fields the passes assign put back to their zero values. *)
Definition origin (t : CTag) : CTag :=
  withSkipMe false (withPrototype "" (withPrototypeModifiers "" t)).

(** What a stage may do to a tag: it leaves the decoded part alone, it leaves
    a suppressed tag as it is, and it rewrites no declaration other than a
    template's. *)
Definition stageStep (t t' : CTag) : Prop :=
  origin t' = origin t
  ∧ (SkipMe t = true → t' = t)
  ∧ (HasPrefix (Prototype t) TEMPLATE = false → Prototype t' = Prototype t).

(** the synthesizer on a declaration that is no template: the declaration
    stays, the modifier is [static] when the snippet has [static] and a space *)
Definition plainModifiers (t : CTag) : CTag :=
  withPrototypeModifiers (if Contains (Code t) "static " then "static" else "") t.

(** The declaration [decl] rebuilt from the snippet [code] of a template:
    everything before the first opening brace when there is one, otherwise
    everything up to and including the last closing parenthesis, and a
    semicolon.  A snippet with neither gives the bare semicolon. *)
Definition snippetDeclaration (code decl : string) : Prop :=
  (∃ pre post, code = pre +:+ String "{" post ∧ hasByte "{" pre = false
               ∧ decl = pre +:+ ";")
  ∨ (hasByte "{" code = false
     ∧ ∃ pre post, code = pre +:+ String ")" post ∧ hasByte ")" post = false
                   ∧ decl = pre +:+ ")" +:+ ";")
  ∨ (hasByte "{" code = false ∧ hasByte ")" code = false ∧ decl = ";").

(** no field of the row has this key *)
Definition absent (key : string) (fields : list string) : Prop :=
  Forall (λ part, HasPrefix part (key +:+ ":") = false) fields.

(** the tags the caller keeps *)
Definition kept (ts : list CTag) : list CTag := filter (λ t, SkipMe t = false) ts.

(** the content of [definedPrototypes] after the loop of [skipDuplicates] has
    run over [ts] *)
Fixpoint definedAfter (definedPrototypes : gmap string bool) (ts : list CTag)
  : gmap string bool :=
  match ts with
  | [] => definedPrototypes
  | tag :: rest =>
      if negb (mapIndex definedPrototypes (Prototype tag)) && negb (SkipMe tag)
      then definedAfter (<[Prototype tag := true]> definedPrototypes) rest
      else definedAfter definedPrototypes rest
  end.

(** ** The helpers of the consistency filter

    [removeTralingSemicolon] and [removeSpacesAndTabs] normalise a declaration
    before it is compared with the snippet. *)

(** [s[0 : len(s)-1]]: it panics on the empty string, and drops the last
    byte of any other, semicolon or not *)
Definition removeTralingSemicolon (s : string) : option string :=
  slice s 0 (len s - 1).

Definition removeSpacesAndTabs (s : string) : string :=
  let s := Replace s " " "" in
  let s := Replace s (String tab "") "" in
  s.

(** ** More vocabulary *)

(** a string starts, or ends, with white space *)
Definition startsWithSpace (s : string) : Prop := is_Some (runePrefix spaceRunes s).
Definition endsWithSpace (s : string) : Prop :=
  is_Some (runePrefix (String.rev <$> spaceRunes) (String.rev s)).

(** no two fields of the row have the same key *)
Definition keysOnce (fields : list string) : Prop :=
  ∀ key, (length (omap (fieldOf key) fields) ≤ 1)%nat.

(** a declaration is closed by a semicolon *)
Definition endsWithSemicolon (s : string) : Prop := ∃ body, s = body +:+ ";".

(** the bytes of [s] other than [c], in their order *)
Fixpoint withoutByte (c : ascii) (s : string) : string :=
  match s with
  | EmptyString => EmptyString
  | String a s' => if Ascii.eqb c a then withoutByte c s' else String a (withoutByte c s')
  end.

(** What the preprocessor does to a file name before the tagging tool copies
    it into the row: every backslash is doubled. *)
Fixpoint escapeBackslashes (s : string) : string :=
  match s with
  | EmptyString => EmptyString
  | String a s' =>
      if Ascii.eqb a "\"
      then String a (String a (escapeBackslashes s'))
      else String a (escapeBackslashes s')
  end.

(** ** Checks of the library model *)

Example Index_ex : Index "chicken" "ken" = 4 ∧ Index "chicken" "dmr" = -1 ∧ Index "abc" "" = 0.
Proof. done. Qed.
Example LastIndex_ex : LastIndex "go gopher" "go" = 3 ∧ LastIndex "go" "x" = -1 ∧ LastIndex "go" "" = 2.
Proof. done. Qed.
Example Split_ex : Split "a,b,,c" "," = ["a"; "b"; ""; "c"] ∧ Split "" "," = [""].
Proof. done. Qed.
Example Replace_ex : Replace "a\\\\b\\\c" "\\" "\" = "a\\b\\c".
Proof. vm_compute. done. Qed.
Example TrimSpace_ex :
  TrimSpace (bytes [32; 9; 194; 160; 104; 105; 32; 120; 226; 128; 137; 10]) = "hi x".
Proof. vm_compute. done. Qed.
Example Atoi_ex :
  Atoi "42" = (42, None) ∧ Atoi "-7" = (-7, None) ∧ Atoi "+" = (0, Some ErrSyntax)
  ∧ Atoi "12a" = (0, Some ErrSyntax) ∧ Atoi "" = (0, Some ErrSyntax)
  ∧ Atoi "9223372036854775807" = (9223372036854775807, None)
  ∧ Atoi "9223372036854775808" = (9223372036854775807, Some ErrRange)
  ∧ Atoi "-9223372036854775809" = (-9223372036854775808, Some ErrRange)
  ∧ Atoi "99999999999999999999999x" = (9223372036854775807, Some ErrRange).
Proof. vm_compute. done. Qed.

(** ** Facts about the string functions *)

Section StringFacts.

Implicit Types (s t sub : string) (c : ascii).

(** case analysis on the integer comparisons of a goal *)
Ltac zcases :=
  repeat match goal with
    | |- context [?a <? ?b] => destruct (Z.ltb_spec a b)
    | |- context [?a <=? ?b] => destruct (Z.leb_spec a b)
    | |- context [?a =? ?b] => destruct (Z.eqb_spec a b)
    end.

Lemma len_nonneg s : 0 ≤ len s.
Proof. unfold len. lia. Qed.

Lemma len_String c s : len (String c s) = len s + 1.
Proof. unfold len. simpl. lia. Qed.

Lemma app_String c s t : String c s +:+ t = String c (s +:+ t).
Proof. reflexivity. Qed.

Lemma app_empty_l t : "" +:+ t = t.
Proof. reflexivity. Qed.

Lemma len_app s t : len (s +:+ t) = len s + len t.
Proof.
  induction s as [|c s IH]; [rewrite app_empty_l; unfold len; simpl; lia|].
  rewrite app_String, !len_String, IH. lia.
Qed.

Lemma HasPrefix_empty s : HasPrefix s "" = true.
Proof. by destruct s. Qed.

Lemma HasPrefix_app s sub : HasPrefix s sub = true ↔ ∃ rest, s = sub +:+ rest.
Proof.
  revert s. induction sub as [|a sub IH]; intros s.
  - rewrite HasPrefix_empty. split; [eauto|done].
  - destruct s as [|b s]; simpl.
    + split; [done|]. intros [rest Hrest]. by rewrite app_String in Hrest.
    + rewrite andb_true_iff, Ascii.eqb_eq, IH. split.
      * intros [-> [rest ->]]. by exists rest.
      * intros [rest Hrest]. rewrite app_String in Hrest. simplify_eq. eauto.
Qed.

Lemma Index_lower s sub : -1 ≤ Index s sub.
Proof.
  induction s as [|c s IH]; simpl; repeat case_match; lia.
Qed.

Lemma Index_upper s sub : Index s sub ≤ len s.
Proof.
  induction s as [|c s IH]; simpl.
  - case_match; unfold len; simpl; lia.
  - rewrite len_String. pose proof (len_nonneg s). case_match; zcases; lia.
Qed.

(** "begins with": [strings.Index(s, sub) == 0] says that [sub] is a prefix *)
Lemma Index_zero s sub : Index s sub = 0 ↔ HasPrefix s sub = true.
Proof.
  destruct s as [|c s]; simpl.
  - case_match; split; (done || lia).
  - pose proof (Index_lower s sub). case_match; zcases; split; (done || lia).
Qed.

Lemma LastIndex_lower s sub : -1 ≤ LastIndex s sub.
Proof.
  induction s as [|c s IH]; simpl; repeat case_match; lia.
Qed.

Lemma LastIndex_upper s c : LastIndex s (String c "") + 1 ≤ len s.
Proof.
  induction s as [|a s IH]; [done|].
  cbn [LastIndex]. rewrite len_String. pose proof (len_nonneg s).
  zcases; [lia|]. case_match; lia.
Qed.

Lemma substring_prefix s t : String.substring 0 (String.length s) (s +:+ t) = s.
Proof.
  induction s as [|c s IH].
  - rewrite app_empty_l. by destruct t.
  - rewrite app_String. simpl. by f_equal.
Qed.

Lemma substring_suffix s t :
  String.substring (String.length s) (String.length t) (s +:+ t) = t.
Proof.
  induction s as [|c s IH]; [|by rewrite app_String].
  rewrite app_empty_l. simpl. induction t as [|c t IH]; [done|]. simpl. by f_equal.
Qed.

Lemma slice_Some s lo hi :
  0 ≤ lo → lo ≤ hi → hi ≤ len s → is_Some (slice s lo hi).
Proof. intros. unfold slice. rewrite bool_decide_eq_true_2; [eauto|lia]. Qed.

Lemma slice_None s lo hi : ¬ (0 ≤ lo ∧ lo ≤ hi ∧ hi ≤ len s) → slice s lo hi = None.
Proof. intros. unfold slice. by rewrite bool_decide_eq_false_2. Qed.

Lemma sliceTo_app s t : sliceTo (s +:+ t) (len s) = Some s.
Proof.
  unfold sliceTo, slice. pose proof (len_nonneg s). pose proof (len_nonneg t).
  rewrite bool_decide_eq_true_2 by (rewrite len_app; lia).
  f_equal. rewrite Z.sub_0_r. unfold len. rewrite Nat2Z.id. apply substring_prefix.
Qed.

Lemma sliceFrom_app s t : sliceFrom (s +:+ t) (len s) = Some t.
Proof.
  unfold sliceFrom, slice. pose proof (len_nonneg s). pose proof (len_nonneg t).
  rewrite bool_decide_eq_true_2 by (rewrite len_app; lia).
  f_equal. rewrite len_app. replace (len s + len t - len s) with (len t) by lia.
  unfold len. rewrite !Nat2Z.id. apply substring_suffix.
Qed.

(** the rounds given to [trimRunes] are enough: what it returns starts with
    no rune of the list any more *)
Lemma length_app s t : String.length (s +:+ t) = (String.length s + String.length t)%nat.
Proof. pose proof (len_app s t). unfold len in *. lia. Qed.

Lemma runePrefix_Some runes s n :
  runePrefix runes s = Some n →
  ∃ r, r ∈ runes ∧ n = String.length r ∧ HasPrefix s r = true.
Proof.
  induction runes as [|r runes IH]; [done|]. cbn [runePrefix].
  destruct (HasPrefix s r) eqn:Hr.
  - intros [= <-]. exists r. by rewrite elem_of_cons; auto.
  - intros (r' & ? & ?)%IH. exists r'. by rewrite elem_of_cons; auto.
Qed.

Lemma dropBytes_app s t : dropBytes (String.length s) (s +:+ t) = t.
Proof.
  unfold dropBytes. rewrite length_app.
  replace (String.length s + String.length t - String.length s)%nat
    with (String.length t) by lia.
  apply substring_suffix.
Qed.

Lemma trimRunes_done rounds runes s :
  Forall (λ r, r ≠ "") runes → (String.length s ≤ rounds)%nat →
  runePrefix runes (trimRunes rounds runes s) = None.
Proof.
  intros Hrunes. revert s. induction rounds as [|rounds IH]; intros s Hlen.
  - destruct s; [|simpl in Hlen; lia]. cbn [trimRunes].
    induction Hrunes as [|r runes Hr _ IHr]; [done|]. cbn [runePrefix].
    by destruct r.
  - cbn [trimRunes]. destruct (runePrefix runes s) as [n|] eqn:Hn; [|done].
    apply runePrefix_Some in Hn as (r & Hin & -> & [rest ->]%HasPrefix_app).
    rewrite dropBytes_app. apply IH. rewrite length_app in Hlen.
    eapply Forall_forall in Hrunes; [|done]. destruct r; [done|]. simpl in Hlen. lia.
Qed.

Lemma TrimLeftSpace_done s : runePrefix spaceRunes (TrimLeftSpace s) = None.
Proof. apply trimRunes_done; [|done]. by repeat constructor. Qed.

End StringFacts.

Section CutFacts.

Implicit Types (s k v : string) (sep : ascii).

Lemma cut_Some sep s k v :
  cut sep s = Some (k, v) → s = k +:+ String sep v ∧ hasByte sep k = false.
Proof.
  revert k. induction s as [|a s IH]; intros k; simpl; [done|].
  destruct (Ascii.eqb_spec sep a) as [->|Hne].
  - intros [= <- <-]. done.
  - destruct (cut sep s) as [[k' v']|]; [|done]. intros [= <- <-].
    destruct (IH k' eq_refl) as [-> Hk]. split; [done|]. simpl.
    rewrite Hk. by apply Ascii.eqb_neq in Hne as ->.
Qed.

Lemma cut_None sep s : cut sep s = None ↔ hasByte sep s = false.
Proof.
  induction s as [|a s IH]; simpl; [done|].
  destruct (Ascii.eqb sep a); simpl; [done|].
  rewrite <- IH. by destruct (cut sep s) as [[??]|].
Qed.

Lemma Index_cut sep s :
  Index s (String sep "") = match cut sep s with Some (k, _) => len k | None => -1 end.
Proof.
  induction s as [|a s IH]; [done|].
  cbn [Index HasPrefix cut]. rewrite HasPrefix_empty, andb_true_r.
  destruct (Ascii.eqb sep a); [done|]. rewrite IH.
  destruct (cut sep s) as [[k v]|]; [|done].
  rewrite len_String. pose proof (len_nonneg k).
  destruct (Z.ltb_spec (len k) 0); lia.
Qed.

Lemma Contains_cut sep s : Contains s (String sep "") = bool_decide (is_Some (cut sep s)).
Proof.
  unfold Contains. rewrite Index_cut. destruct (cut sep s) as [[k v]|].
  - rewrite bool_decide_eq_true_2 by eauto. pose proof (len_nonneg k).
    apply Z.leb_le. lia.
  - rewrite bool_decide_eq_false_2; [done|]. by intros [? ?].
Qed.

Lemma cutLast_Some sep s k v :
  cutLast sep s = Some (k, v) → s = k +:+ String sep v ∧ hasByte sep v = false.
Proof.
  revert k. induction s as [|a s IH]; intros k; simpl; [done|].
  destruct (cutLast sep s) as [[k' v']|] eqn:Hcut.
  - intros [= <- <-]. destruct (IH k' eq_refl) as [-> Hv]. done.
  - destruct (Ascii.eqb_spec sep a) as [->|Hne]; [|done].
    intros [= <- <-]. split; [done|]. clear IH.
    induction s as [|b s IH]; [done|]. simpl in *.
    destruct (cutLast a s) as [[??]|]; [done|].
    destruct (Ascii.eqb a b); [done|]. by apply IH.
Qed.

Lemma cutLast_None sep s : cutLast sep s = None ↔ hasByte sep s = false.
Proof.
  induction s as [|a s IH]; simpl; [done|].
  destruct (cutLast sep s) as [[??]|].
  - split; [done|]. intros [_ H]%orb_false_iff. apply IH in H. done.
  - destruct (Ascii.eqb sep a); simpl; [done|]. split; [|done]. intros _. by apply IH.
Qed.

Lemma LastIndex_cutLast sep s :
  LastIndex s (String sep "") =
    match cutLast sep s with Some (k, _) => len k | None => -1 end.
Proof.
  induction s as [|a s IH]; [done|].
  cbn [LastIndex HasPrefix cutLast]. rewrite HasPrefix_empty, andb_true_r, IH.
  destruct (cutLast sep s) as [[k v]|].
  - rewrite len_String. pose proof (len_nonneg k).
    destruct (Z.leb_spec 0 (len k)); lia.
  - simpl. by destruct (Ascii.eqb sep a).
Qed.

End CutFacts.

(** unfold field reads and writes of tags *)
Ltac tag_simpl :=
  cbn [FunctionName Kind Line Code Class Struct Namespace Filename Typeref SkipMe
       Signature Prototype PrototypeModifiers withFunctionName withKind withLine withCode
       withClass withStruct withNamespace withFilename withTyperef withSkipMe
       withSignature withPrototype withPrototypeModifiers zeroTag fst snd] in *.

Section DecoderFacts.

Lemma parseField_step st part : parseField st part = Some (fieldStep st part).
Proof.
  unfold parseField, fieldStep. destruct st as [tag returntype].
  rewrite Contains_cut, Index_cut.
  destruct (cut ":" part) as [[k v]|] eqn:Hcut.
  - rewrite bool_decide_eq_true_2 by eauto.
    apply cut_Some in Hcut as [-> _].
    rewrite sliceTo_app. cbn [mbind option_bind].
    replace (k +:+ String ":" v) with ((k +:+ ":") +:+ v)
      by (clear; induction k; [done|rewrite !app_String; by f_equal]).
    replace (len k + 1) with (len (k +:+ ":")) by (rewrite len_app; done).
    rewrite sliceFrom_app. done.
  - rewrite bool_decide_eq_false_2; [done|]. by intros [? ?].
Qed.

Lemma foldM_parseField fields st :
  foldM parseField st fields = Some (foldl fieldStep st fields).
Proof.
  revert st. induction fields as [|part fields IH]; intros st; [done|].
  cbn [foldM foldl]. rewrite parseField_step. cbn [mbind option_bind]. apply IH.
Qed.

Lemma lastValue_snoc key fields part :
  lastValue key (fields ++ [part]) =
    match fieldOf key part with Some v => Some v | None => lastValue key fields end.
Proof.
  unfold lastValue. rewrite omap_app. cbn [omap list_omap].
  destruct (fieldOf key part); [by rewrite last_snoc|by rewrite app_nil_r].
Qed.

(** what the loop over the fields leaves in the tag and in [returntype] *)
Definition fieldsDone (fields : list string) (st st' : CTag * string) : Prop :=
  let value (get : CTag → string) key := default (get st.1) (lastValue key fields) in
  Kind st'.1 = value Kind "kind"
  ∧ Line st'.1 = default (Line st.1) ((λ v, (Atoi v).1) <$> lastValue "line" fields)
  ∧ Typeref st'.1 = value Typeref "typeref"
  ∧ Signature st'.1 = value Signature "signature"
  ∧ st'.2 = default st.2 (lastValue "returntype" fields)
  ∧ Class st'.1 = value Class "class"
  ∧ Struct st'.1 = value Struct "struct"
  ∧ Namespace st'.1 = value Namespace "namespace"
  ∧ FunctionName st'.1 = FunctionName st.1
  ∧ Filename st'.1 = Filename st.1
  ∧ Code st'.1 = Code st.1
  ∧ SkipMe st'.1 = SkipMe st.1
  ∧ Prototype st'.1 = Prototype st.1
  ∧ PrototypeModifiers st'.1 = PrototypeModifiers st.1.

Lemma foldl_fieldStep fields st : fieldsDone fields st (foldl fieldStep st fields).
Proof.
  induction fields as [|part fields IH] using rev_ind.
  { unfold fieldsDone. cbv zeta. repeat split. }
  rewrite foldl_app. cbn [foldl].
  set (prev := foldl fieldStep st fields) in *. clearbody prev.
  unfold fieldsDone in *. cbv zeta in *.
  rewrite !lastValue_snoc. unfold fieldStep, fieldOf.
  destruct prev as [tag returntype]. simpl in IH.
  destruct (cut ":" part) as [[k v]|]; [|done].
  unfold assign.
  repeat match goal with
    | |- context [String.eqb k ?key] =>
        destruct (String.eqb_spec k key) as [->|?];
        [destruct_and!; simpl in *; by repeat split|]
    end.
  done.
Qed.

Lemma CTag_eta (t : CTag) :
  t = mkCTag (FunctionName t) (Kind t) (Line t) (Code t) (Class t) (Struct t)
        (Namespace t) (Filename t) (Typeref t) (SkipMe t) (Signature t) (Prototype t)
        (PrototypeModifiers t).
Proof. by destruct t. Qed.

(** [parseTag] returns exactly on the decodable rows, and then returns the
    tag the specification describes. *)
Lemma parseTag_decode row :
  parseTag row = if rowDecodable row then Some (decodeSpec row) else None.
Proof.
  unfold parseTag, rowDecodable, decodeSpec, rowCode.
  destruct (Split row tab) as [|name [|file fields]] eqn:Hparts; [done..|].
  rewrite bool_decide_eq_true_2 by (simpl; lia).
  unfold partsFrom. rewrite bool_decide_eq_true_2 by (simpl; lia).
  cbn [lookup list_lookup mbind option_bind length drop default from_option id andb].
  change (drop 0 fields) with fields.
  rewrite foldM_parseField. cbn [mbind option_bind].
  pose proof (foldl_fieldStep fields
    (withFilename (Replace file "\\" "\") (withFunctionName name zeroTag), "")) as Hdone.
  destruct (foldl fieldStep _ fields) as [tag returntype].
  unfold fieldsDone in Hdone. destruct tag. tag_simpl. destruct_and!. subst.
  destruct (Contains row "/^" && Contains row "$/;") eqn:Hmarkers; [|done].
  cbn [negb orb]. pose proof (Index_upper row "$/;").
  assert (0 ≤ Index row "/^") as Hlo.
  { apply andb_true_iff in Hmarkers as [Hopen _]. by apply Z.leb_le in Hopen. }
  destruct (Z.leb_spec (Index row "/^" + 2) (Index row "$/;")).
  - destruct (slice_Some row (Index row "/^" + 2) (Index row "$/;")) as [code ->]; [lia..|].
    done.
  - rewrite slice_None by lia. done.
Qed.

End DecoderFacts.

(** ** The pipeline *)

Section Pipeline.

Variable findTemplateMultiline : CTag → string.
Variable prototypeAndCodeDontMatch : Path → CTag → bool.

(** [Parse] decodes the rows, appends the tags, and runs the six stages. *)
Lemma Parse_stages p ctagsOutput mainFile' :
  Parse findTemplateMultiline prototypeAndCodeDontMatch p ctagsOutput mainFile' =
    decoded ← decode ctagsOutput;
    p' ← runStages findTemplateMultiline prototypeAndCodeDontMatch stages (mkParser (tags p ++ decoded) mainFile');
    Some (tags p', p').
Proof.
  unfold Parse, decode. destruct (mapM parseTag _) as [decoded|]; [|done].
  cbn [mbind option_bind runStages stages foldM runStage].
  by destruct (addPrototypes _ _).
Qed.

(** *** The synthesizer returns *)

Lemma TrimSpace_modifiers : TrimSpace "" = "" ∧ TrimSpace (" " +:+ STATIC) = "static".
Proof. by vm_compute. Qed.

(** a declaration that is no template: only the modifiers are computed *)
Lemma addPrototype_plain tag :
  HasPrefix (Prototype tag) TEMPLATE = false →
  addPrototype findTemplateMultiline tag =
    Some (withPrototypeModifiers
            (if Contains (Code tag) "static " then "static" else "") tag).
Proof.
  intros Hplain. unfold addPrototype.
  destruct (Z.eqb_spec (Index (Prototype tag) TEMPLATE) 0) as [Hidx|_].
  { apply Index_zero in Hidx. congruence. }
  destruct TrimSpace_modifiers as [Hnone Hstatic].
  destruct tag. tag_simpl. change (STATIC +:+ " ") with "static ".
  case_match; tag_simpl; change ("" +:+ " " +:+ STATIC) with (" " +:+ STATIC);
    by rewrite ?Hnone, ?Hstatic.
Qed.

(** a template whose snippet starts with [template] too: the declaration is
    cut out of the snippet *)
Lemma addPrototype_template tag :
  HasPrefix (Prototype tag) TEMPLATE = true →
  HasPrefix (Code tag) TEMPLATE = true →
  addPrototype findTemplateMultiline tag =
    Some (withPrototype
            (match cut "{" (Code tag) with
             | Some (pre, _) => pre
             | None => match cutLast ")" (Code tag) with
                       | Some (pre, _) => pre +:+ ")"
                       | None => ""
                       end
             end +:+ ";") tag).
Proof.
  intros Hproto Hcode. unfold addPrototype.
  apply Index_zero in Hproto as ->. apply Index_zero in Hcode as ->.
  cbn [Z.eqb]. rewrite Contains_cut, Index_cut, LastIndex_cutLast.
  destruct (cut "{" (Code tag)) as [[pre post]|] eqn:Hcut.
  - rewrite bool_decide_eq_true_2 by eauto.
    apply cut_Some in Hcut as [-> _]. by rewrite sliceTo_app.
  - rewrite bool_decide_eq_false_2 by (by intros [? ?]).
    destruct (cutLast ")" (Code tag)) as [[pre post]|] eqn:Hlast;
      [|by rewrite (sliceTo_app "" (Code tag) : sliceTo (Code tag) (-1 + 1) = Some "")].
    apply cutLast_Some in Hlast as [-> _].
    replace (pre +:+ String ")" post) with ((pre +:+ ")") +:+ post)
      by (clear; induction pre; [done|rewrite !app_String; by f_equal]).
    replace (len pre + 1) with (len (pre +:+ ")")) by (by rewrite len_app).
    by rewrite sliceTo_app.
Qed.

(** [addPrototype] never panics, and writes nothing but the declaration and
    its modifiers *)
Lemma addPrototype_shape tag :
  ∃ proto mods,
    addPrototype findTemplateMultiline tag = Some (withPrototypeModifiers mods (withPrototype proto tag))
    ∧ (HasPrefix (Prototype tag) TEMPLATE = false → proto = Prototype tag).
Proof.
  assert (∀ proto, withPrototype proto tag =
    withPrototypeModifiers (PrototypeModifiers tag) (withPrototype proto tag)) as Heta
    by (intros; by destruct tag).
  destruct (HasPrefix (Prototype tag) TEMPLATE) eqn:Hproto.
  - destruct (HasPrefix (Code tag) TEMPLATE) eqn:Hcode.
    + rewrite addPrototype_template by done. eexists _, _. by rewrite <- Heta.
    + unfold addPrototype. apply Index_zero in Hproto as ->. cbn [Z.eqb].
      destruct (Z.eqb_spec (Index (Code tag) TEMPLATE) 0) as [Hidx|_].
      { apply Index_zero in Hidx. congruence. }
      eexists _, _. by rewrite <- Heta.
  - rewrite addPrototype_plain by done. eexists (Prototype tag), _.
    split; [|done]. by destruct tag.
Qed.

(** *** Every stage returns and respects [stageStep] *)

Lemma stageStep_refl t : stageStep t t.
Proof. by repeat split. Qed.

Lemma stageStep_trans t1 t2 t3 : stageStep t1 t2 → stageStep t2 t3 → stageStep t1 t3.
Proof.
  intros (Ho1 & Hs1 & Hp1) (Ho2 & Hs2 & Hp2). split; [|split].
  - congruence.
  - intros Hs. specialize (Hs1 Hs). subst t2. auto.
  - intros Hp. specialize (Hp1 Hp). rewrite <- Hp1. apply Hp2. congruence.
Qed.

Lemma withSkipMe_same t : withSkipMe (SkipMe t) t = t.
Proof. by destruct t. Qed.

Lemma stageStep_skip b t : (SkipMe t = true → b = true) → stageStep t (withSkipMe b t).
Proof.
  intros Hb. split; [by destruct t|]. split; [|by destruct t].
  intros Hs. rewrite (Hb Hs), <- Hs. apply withSkipMe_same.
Qed.

Lemma stageStep_addPrototype t t' :
  SkipMe t = false → addPrototype findTemplateMultiline t = Some t' → stageStep t t'.
Proof.
  intros Hs. destruct (addPrototype_shape t) as (proto & mods & -> & Hproto).
  intros [= <-]. split; [by destruct t|]. split; [congruence|].
  intros Hplain. rewrite (Hproto Hplain). by destruct t.
Qed.

Lemma Forall2_fmap_self {A} (R : A → A → Prop) (f : A → A) (l : list A) :
  (∀ x, R x (f x)) → Forall2 R l (f <$> l).
Proof. intros Hf. induction l; constructor; auto. Qed.

Lemma skipTagsWhere_step skipFunc p :
  Forall2 stageStep (tags p) (tags (skipTagsWhere skipFunc p)).
Proof.
  apply Forall2_fmap_self. intros t. destruct (SkipMe t) eqn:Hs; simpl.
  - apply stageStep_refl.
  - apply stageStep_skip. congruence.
Qed.

Lemma removeDefinedProtypes_step p :
  Forall2 stageStep (tags p) (tags (removeDefinedProtypes p)).
Proof.
  apply Forall2_fmap_self. intros t. case_match.
  - by apply stageStep_skip.
  - apply stageStep_refl.
Qed.

Lemma skipDuplicatesFrom_step definedPrototypes ts :
  Forall2 stageStep ts (skipDuplicatesFrom definedPrototypes ts).
Proof.
  revert definedPrototypes. induction ts as [|t ts IH]; intros m; simpl; [constructor|].
  case_match; constructor; auto using stageStep_refl. by apply stageStep_skip.
Qed.

Lemma addPrototypes_step p :
  ∃ p', addPrototypes findTemplateMultiline p = Some p'
        ∧ mainFile p' = mainFile p
        ∧ Forall2 stageStep (tags p) (tags p').
Proof.
  unfold addPrototypes.
  set (f := λ tag, if negb (SkipMe tag) then addPrototype findTemplateMultiline tag
                   else Some tag).
  destruct (mapM_is_Some_2 f (tags p)) as [ts Hts].
  { apply Forall_forall. intros t _. unfold f. simpl. destruct (SkipMe t); [eauto|].
    destruct (addPrototype_shape t) as (? & ? & -> & _). eauto. }
  rewrite Hts. eexists. split; [done|]. split; [done|]. simpl.
  apply mapM_Some_1 in Hts. eapply Forall2_impl; [exact Hts|].
  intros t t'. unfold f. destruct (SkipMe t) eqn:Hs; simpl.
  - intros [= <-]. apply stageStep_refl.
  - by apply stageStep_addPrototype.
Qed.

Lemma runStage_step stage p :
  ∃ p', runStage findTemplateMultiline prototypeAndCodeDontMatch stage p = Some p'
        ∧ mainFile p' = mainFile p
        ∧ Forall2 stageStep (tags p) (tags p').
Proof.
  destruct stage; cbn [runStage]; [| |apply addPrototypes_step| | |];
    (eexists; split; [reflexivity|]; split; [reflexivity|]);
    auto using skipTagsWhere_step, removeDefinedProtypes_step.
  apply skipDuplicatesFrom_step.
Qed.

Lemma Forall2_stageStep_trans ts1 ts2 ts3 :
  Forall2 stageStep ts1 ts2 → Forall2 stageStep ts2 ts3 → Forall2 stageStep ts1 ts3.
Proof.
  intros H12. revert ts3. induction H12; intros ts3 H23; inversion H23; subst;
    constructor; eauto using stageStep_trans.
Qed.

Lemma runStages_step ss p :
  ∃ p', runStages findTemplateMultiline prototypeAndCodeDontMatch ss p = Some p'
        ∧ mainFile p' = mainFile p
        ∧ Forall2 stageStep (tags p) (tags p').
Proof.
  revert p. induction ss as [|stage ss IH]; intros p.
  - exists p. repeat split. apply Forall_Forall2_diag, Forall_forall.
    intros; apply stageStep_refl.
  - destruct (runStage_step stage p) as (p1 & Hrun & Hfile & Hstep).
    destruct (IH p1) as (p' & Hrest & Hfile' & Hstep').
    exists p'. unfold runStages in *. cbn [foldM]. rewrite Hrun. cbn [mbind option_bind].
    split; [done|]. split; [congruence|]. by eapply Forall2_stageStep_trans.
Qed.

(** Once the rows are decoded, [Parse] returns: the tags of the parser after
    the six stages. *)
Lemma Parse_run p ctagsOutput mainFile' decoded :
  decode ctagsOutput = Some decoded →
  ∃ p', Parse findTemplateMultiline prototypeAndCodeDontMatch p ctagsOutput mainFile'
          = Some (tags p', p')
        ∧ runStages findTemplateMultiline prototypeAndCodeDontMatch stages
            (mkParser (tags p ++ decoded) mainFile') = Some p'
        ∧ Forall2 stageStep (tags p ++ decoded) (tags p').
Proof.
  intros Hdec. rewrite Parse_stages, Hdec. cbn [mbind option_bind].
  destruct (runStages_step stages (mkParser (tags p ++ decoded) mainFile'))
    as (p' & -> & _ & Hstep).
  by exists p'.
Qed.

(** *** Consequences for a tag at a given place *)

Lemma stageStep_lookup ts ts' i t :
  Forall2 stageStep ts ts' → ts !! i = Some t →
  ∃ t', ts' !! i = Some t' ∧ stageStep t t'.
Proof. intros Hstep Ht. by eapply Forall2_lookup_l. Qed.

Lemma stageStep_origin ts ts' : Forall2 stageStep ts ts' → origin <$> ts' = origin <$> ts.
Proof. induction 1 as [|t t' ts ts' (Ho & _) _ IH]; [done|]. cbn [fmap list_fmap]. by f_equal. Qed.

(** a tag that is suppressed stays where it is, as it is, through any stages *)
Lemma runStages_frozen ss p p' i t :
  runStages findTemplateMultiline prototypeAndCodeDontMatch ss p = Some p' →
  tags p !! i = Some t → SkipMe t = true → tags p' !! i = Some t.
Proof.
  intros Hrun Ht Hs. destruct (runStages_step ss p) as (p'' & Hrun' & _ & Hstep).
  simplify_eq. destruct (stageStep_lookup _ _ _ _ Hstep Ht) as (t' & Ht' & _ & Hfrozen & _).
  by rewrite (Hfrozen Hs) in Ht'.
Qed.

Lemma skipTagsWhere_lookup skipFunc p i t :
  tags p !! i = Some t →
  tags (skipTagsWhere skipFunc p) !! i =
    Some (if negb (SkipMe t) then withSkipMe (skipFunc t) t else t).
Proof. intros Ht. cbn [skipTagsWhere withTags tags]. by rewrite list_lookup_fmap, Ht. Qed.

Lemma tagIsUnknown_true t :
  Kind t ≠ KIND_FUNCTION → Kind t ≠ KIND_PROTOTYPE → tagIsUnknown t = true.
Proof.
  intros Hf Hp. unfold tagIsUnknown, mapIndex, KNOWN_TAG_KINDS.
  rewrite !lookup_insert_ne by done. by rewrite lookup_empty.
Qed.

Lemma tagIsUnhandled_true t :
  Class t ≠ "" ∨ Struct t ≠ "" ∨ Namespace t ≠ "" → tagIsUnhandled t = true.
Proof.
  unfold tagIsUnhandled, isHandled. intros Hscope.
  destruct (String.eqb_spec (Class t) "") as [Hclass|]; [|done].
  destruct (String.eqb_spec (Struct t) "") as [Hstruct|]; [|done].
  destruct (String.eqb_spec (Namespace t) "") as [Hnamespace|]; [|done].
  by destruct Hscope as [?|[?|?]].
Qed.

Lemma origin_fields t t' :
  origin t' = origin t →
  Kind t' = Kind t ∧ Class t' = Class t ∧ Struct t' = Struct t
  ∧ Namespace t' = Namespace t.
Proof. destruct t, t'. unfold origin. tag_simpl. by intros [=]. Qed.

(** C7 — The [SkipMe] flag is write-once-true.  Each of the six stages (kind
    filter, scope filter, synthesizer, shadow resolver, duplicate resolver,
    consistency filter), run on any state of the parser, returns, and every
    tag that was suppressed before the stage ran is suppressed after it ran:
    no stage resets [SkipMe] to [false]. *)
Theorem suppressed_is_write_once stage p :
  ∃ p', runStage findTemplateMultiline prototypeAndCodeDontMatch stage p = Some p'
        ∧ ∀ i t, tags p !! i = Some t → SkipMe t = true →
                 ∃ t', tags p' !! i = Some t' ∧ SkipMe t' = true.
Proof.
  destruct (runStage_step stage p) as (p' & Hrun & _ & Hstep).
  exists p'. split; [done|]. intros i t Ht Hs.
  destruct (stageStep_lookup _ _ _ _ Hstep Ht) as (t' & Ht' & _ & Hfrozen & _).
  exists t'. split; [done|]. by rewrite (Hfrozen Hs).
Qed.

(** C4 — Kind filtering.  Once the rows are decoded, [Parse] returns, and a
    tag whose kind is neither [function] nor [prototype] comes out suppressed,
    at the place it went in and with its decoded fields as they were, whatever
    its other fields hold. *)
Theorem unknown_kind_suppressed p ctagsOutput mainFile' decoded i t :
  decode ctagsOutput = Some decoded →
  (tags p ++ decoded) !! i = Some t →
  Kind t ≠ KIND_FUNCTION → Kind t ≠ KIND_PROTOTYPE →
  ∃ out p' t',
    Parse findTemplateMultiline prototypeAndCodeDontMatch p ctagsOutput mainFile'
      = Some (out, p')
    ∧ out !! i = Some t' ∧ origin t' = origin t ∧ SkipMe t' = true.
Proof.
  intros Hdec Ht Hf Hp.
  destruct (Parse_run p ctagsOutput mainFile' decoded Hdec) as (p' & HParse & Hrun & _).
  set (p0 := mkParser (tags p ++ decoded) mainFile') in *.
  change (runStages _ _ stages p0)
    with (runStages findTemplateMultiline prototypeAndCodeDontMatch
            [ScopeFilter; Synthesizer; ShadowResolver; DuplicateResolver; ConsistencyFilter]
            (skipTagsWhere tagIsUnknown p0)) in Hrun.
  pose proof (skipTagsWhere_lookup tagIsUnknown p0 i t Ht) as Ht1.
  rewrite (tagIsUnknown_true t Hf Hp) in Ht1.
  set (t1 := if negb (SkipMe t) then withSkipMe true t else t) in *.
  assert (SkipMe t1 = true ∧ origin t1 = origin t) as [Hs1 Ho1]
    by (unfold t1; destruct t as [? ? ? ? ? ? ? ? ? []]; done).
  exists (tags p'), p', t1. split; [done|]. split; [|done].
  by eapply runStages_frozen.
Qed.

(** C5 — Scope filtering.  Once the rows are decoded, [Parse] returns, and a
    tag with a non-empty class, struct or namespace comes out suppressed, at
    the place it went in, also when its kind is [function] or [prototype]. *)
Theorem scoped_tag_suppressed p ctagsOutput mainFile' decoded i t :
  decode ctagsOutput = Some decoded →
  (tags p ++ decoded) !! i = Some t →
  Class t ≠ "" ∨ Struct t ≠ "" ∨ Namespace t ≠ "" →
  ∃ out p' t',
    Parse findTemplateMultiline prototypeAndCodeDontMatch p ctagsOutput mainFile'
      = Some (out, p')
    ∧ out !! i = Some t' ∧ origin t' = origin t ∧ SkipMe t' = true.
Proof.
  intros Hdec Ht Hscope.
  destruct (Parse_run p ctagsOutput mainFile' decoded Hdec) as (p' & HParse & Hrun & _).
  set (p0 := mkParser (tags p ++ decoded) mainFile') in *.
  change (runStages _ _ stages p0)
    with (runStages findTemplateMultiline prototypeAndCodeDontMatch
            [Synthesizer; ShadowResolver; DuplicateResolver; ConsistencyFilter]
            (skipTagsWhere tagIsUnhandled (skipTagsWhere tagIsUnknown p0))) in Hrun.
  pose proof (skipTagsWhere_lookup tagIsUnknown p0 i t Ht) as Ht1.
  set (t1 := if negb (SkipMe t) then _ else t) in *.
  pose proof (skipTagsWhere_lookup tagIsUnhandled _ i t1 Ht1) as Ht2.
  assert (origin t1 = origin t) as Ho1 by (unfold t1; by destruct t as [? ? ? ? ? ? ? ? ? []]).
  assert (tagIsUnhandled t1 = true) as Hun.
  { apply tagIsUnhandled_true. apply origin_fields in Ho1 as (_ & -> & -> & ->). done. }
  rewrite Hun in Ht2.
  set (t2 := if negb (SkipMe t1) then _ else t1) in *.
  assert (SkipMe t2 = true ∧ origin t2 = origin t1) as [Hs2 Ho2]
    by (unfold t2; destruct t1 as [? ? ? ? ? ? ? ? ? []]; done).
  exists (tags p'), p', t2. split; [done|]. split; [|split; [congruence|done]].
  by eapply runStages_frozen.
Qed.

(** *** The decoding loop *)

Lemma decode_spec ctagsOutput decoded :
  decode ctagsOutput = Some decoded →
  decoded = decodeSpec <$> removeEmpty (Split ctagsOutput newline)
  ∧ Forall (λ row, rowDecodable row = true) (removeEmpty (Split ctagsOutput newline)).
Proof.
  unfold decode. generalize (removeEmpty (Split ctagsOutput newline)). intros rows Hdec.
  apply mapM_Some_1 in Hdec. induction Hdec as [|row t rows ts Hrow _ [-> IH]]; [done|].
  rewrite parseTag_decode in Hrow. destruct (rowDecodable row) eqn:Hok; [|done].
  simplify_eq. split; [done|]. by constructor.
Qed.

Lemma decode_total ctagsOutput :
  Forall (λ row, rowDecodable row = true) (removeEmpty (Split ctagsOutput newline)) →
  decode ctagsOutput = Some (decodeSpec <$> removeEmpty (Split ctagsOutput newline)).
Proof.
  unfold decode. generalize (removeEmpty (Split ctagsOutput newline)). intros rows Hrows.
  apply mapM_Some_2. induction Hrows as [|row rows Hrow _ IH]; constructor; [|done].
  by rewrite parseTag_decode, Hrow.
Qed.

(** C9 — Order preservation.  Once the rows are decoded, [Parse] returns the
    tags of the parser: one tag for each tag the parser held and for each
    non-blank row, in the order of the rows, each with its decoded fields as
    the decoder left them.  The kept tags are a sub-list of them, in the same
    relative order.  No stage reorders, inserts or removes a tag. *)
Theorem Parse_preserves_order p ctagsOutput mainFile' decoded :
  decode ctagsOutput = Some decoded →
  ∃ out p',
    Parse findTemplateMultiline prototypeAndCodeDontMatch p ctagsOutput mainFile'
      = Some (out, p')
    ∧ out = tags p'
    ∧ decoded = decodeSpec <$> removeEmpty (Split ctagsOutput newline)
    ∧ origin <$> out = origin <$> (tags p ++ decoded)
    ∧ origin <$> kept out `sublist_of` origin <$> (tags p ++ decoded)
    ∧ ∀ stage q,
        ∃ q', runStage findTemplateMultiline prototypeAndCodeDontMatch stage q = Some q'
              ∧ origin <$> tags q' = origin <$> tags q.
Proof.
  intros Hdec.
  destruct (Parse_run p ctagsOutput mainFile' decoded Hdec) as (p' & HParse & _ & Hstep).
  exists (tags p'), p'. split; [done|]. split; [done|].
  split; [by apply decode_spec|].
  pose proof (stageStep_origin _ _ Hstep) as Horigin. split; [done|]. split.
  - rewrite <- Horigin. apply fmap_sublist, sublist_filter.
  - intros stage q. destruct (runStage_step stage q) as (q' & Hrun & _ & Hq).
    exists q'. split; [done|]. by apply stageStep_origin.
Qed.

(** *** The shadow resolver *)

Lemma mapIndex_insert m k k' :
  mapIndex (<[k := true]> m) k' = bool_decide (k = k') || mapIndex m k'.
Proof.
  unfold mapIndex. rewrite lookup_insert. case_decide.
  - by rewrite bool_decide_eq_true_2.
  - by rewrite bool_decide_eq_false_2.
Qed.

Lemma mapIndex_empty k : mapIndex ∅ k = false.
Proof. unfold mapIndex. by rewrite lookup_empty. Qed.

Lemma collectPrototypes_from m ts k :
  mapIndex (foldl (λ definedPrototypes tag,
              if String.eqb (Kind tag) KIND_PROTOTYPE
              then <[Prototype tag := true]> definedPrototypes
              else definedPrototypes) m ts) k = true
  ↔ mapIndex m k = true ∨ ∃ tp, tp ∈ ts ∧ Kind tp = KIND_PROTOTYPE ∧ Prototype tp = k.
Proof.
  revert m. induction ts as [|t ts IH]; intros m; cbn [foldl].
  - split; [auto|]. intros [?|(? & []%elem_of_nil & _)]. done.
  - rewrite IH. destruct (String.eqb_spec (Kind t) KIND_PROTOTYPE) as [Hkind|Hkind].
    + rewrite mapIndex_insert, orb_true_iff, bool_decide_eq_true. split.
      * intros [[<-|?]|(tp & ? & ?)]; [right; exists t|by left|right; exists tp];
          by rewrite ?elem_of_cons; auto.
      * intros [?|(tp & [->|?]%elem_of_cons & ? & ?)]; [auto|auto|right; by exists tp].
    + split.
      * intros [?|(tp & ? & ?)]; [by left|right; exists tp]. by rewrite elem_of_cons; auto.
      * intros [?|(tp & [->|?]%elem_of_cons & ? & ?)]; [auto|done|right; by exists tp].
Qed.

(** [definedPrototypes] of [removeDefinedProtypes] holds exactly the
    declarations of the tags of kind [prototype] *)
Lemma collectPrototypes_spec ts k :
  mapIndex (collectPrototypes ts) k = true
  ↔ ∃ tp, tp ∈ ts ∧ Kind tp = KIND_PROTOTYPE ∧ Prototype tp = k.
Proof.
  unfold collectPrototypes. rewrite collectPrototypes_from, mapIndex_empty.
  split; [by intros [?|?]|auto].
Qed.

Lemma runStages_app ss1 ss2 p :
  runStages findTemplateMultiline prototypeAndCodeDontMatch (ss1 ++ ss2) p =
    p1 ← runStages findTemplateMultiline prototypeAndCodeDontMatch ss1 p;
    runStages findTemplateMultiline prototypeAndCodeDontMatch ss2 p1.
Proof.
  unfold runStages. revert p. induction ss1 as [|stage ss1 IH]; intros p; [done|].
  cbn [app foldM]. destruct (runStage _ _ stage p) as [p1|]; [|done].
  cbn [mbind option_bind]. apply IH.
Qed.

Lemma removeDefinedProtypes_lookup p i t :
  tags p !! i = Some t →
  tags (removeDefinedProtypes p) !! i =
    Some (if mapIndex (collectPrototypes (tags p)) (Prototype t)
          then withSkipMe true t else t).
Proof.
  intros Ht. unfold removeDefinedProtypes, withTags. simpl.
  by rewrite list_lookup_fmap, Ht.
Qed.

(** Any tag whose declaration is that of a tag of kind [prototype] comes out
    of the stages suppressed, the tag of kind [prototype] included. *)
Lemma shadowed_suppressed p p' i j t tp :
  runStages findTemplateMultiline prototypeAndCodeDontMatch stages p = Some p' →
  tags p !! j = Some tp → Kind tp = KIND_PROTOTYPE →
  HasPrefix (Prototype tp) TEMPLATE = false →
  tags p !! i = Some t → Prototype t = Prototype tp →
  ∃ t', tags p' !! i = Some t' ∧ origin t' = origin t ∧ SkipMe t' = true
        ∧ Prototype t' = Prototype t.
Proof.
  intros Hrun Htp Hkind Hplain Ht Hproto.
  change stages with ([KindFilter; ScopeFilter; Synthesizer]
                      ++ [ShadowResolver] ++ [DuplicateResolver; ConsistencyFilter]) in Hrun.
  rewrite runStages_app in Hrun.
  destruct (runStages_step [KindFilter; ScopeFilter; Synthesizer] p)
    as (p3 & Hrun3 & _ & Hstep3).
  rewrite Hrun3 in Hrun. cbn [mbind option_bind] in Hrun.
  change (runStages findTemplateMultiline prototypeAndCodeDontMatch
            ([ShadowResolver] ++ [DuplicateResolver; ConsistencyFilter]) p3)
    with (runStages findTemplateMultiline prototypeAndCodeDontMatch
            [DuplicateResolver; ConsistencyFilter] (removeDefinedProtypes p3)) in Hrun.
  destruct (stageStep_lookup _ _ _ _ Hstep3 Htp) as (tp3 & Htp3 & Hotp & _ & Hptp).
  destruct (stageStep_lookup _ _ _ _ Hstep3 Ht) as (t3 & Ht3 & Hot & _ & Hpt).
  specialize (Hptp Hplain). rewrite <- Hproto in Hplain. specialize (Hpt Hplain).
  apply origin_fields in Hotp as (Hkind3 & _).
  assert (mapIndex (collectPrototypes (tags p3)) (Prototype t3) = true) as Hdef.
  { apply collectPrototypes_spec. exists tp3. split; [by eapply list_elem_of_lookup_2|].
    split; congruence. }
  exists (withSkipMe true t3). split; [|split; [|split]].
  - eapply runStages_frozen; [exact Hrun| |by destruct t3].
    by rewrite (removeDefinedProtypes_lookup _ _ _ Ht3), Hdef.
  - rewrite <- Hot. by destruct t3.
  - by destruct t3.
  - rewrite <- Hpt. by destruct t3.
Qed.

(** C1, as the code has it — Shadowing.  When the rows decode to one tag of kind
    [prototype] and one of kind [function], in either order, both with the
    declaration [void foo();], [Parse] returns the two tags in that order,
    both suppressed: the function tag, and the prototype tag as well, since
    its own declaration is among the defined prototypes.  Both keep the
    declaration [void foo();]. *)
Theorem shadowing_suppresses_both p ctagsOutput mainFile' decoded tp tf :
  tags p = [] →
  decode ctagsOutput = Some decoded →
  decoded = [tp; tf] ∨ decoded = [tf; tp] →
  Kind tp = KIND_PROTOTYPE → Prototype tp = "void foo();" →
  Kind tf = KIND_FUNCTION → Prototype tf = "void foo();" →
  ∃ out p',
    Parse findTemplateMultiline prototypeAndCodeDontMatch p ctagsOutput mainFile'
      = Some (out, p')
    ∧ origin <$> out = origin <$> decoded
    ∧ SkipMe <$> out = [true; true]
    ∧ Prototype <$> out = ["void foo();"; "void foo();"].
Proof.
  intros Hfresh Hdec Horder Hkp Hpp Hkf Hpf.
  destruct (Parse_run p ctagsOutput mainFile' decoded Hdec) as (p' & HParse & Hrun & Hstep).
  rewrite Hfresh in *. cbn [app] in *.
  exists (tags p'), p'. split; [done|]. split; [by apply stageStep_origin|].
  assert (∃ j, decoded !! j = Some tp) as [j Hj]
    by (destruct Horder as [-> | ->]; [by exists 0%nat|by exists 1%nat]).
  assert (HasPrefix (Prototype tp) TEMPLATE = false) as Hplain by by rewrite Hpp.
  assert (∀ i t, decoded !! i = Some t → Prototype t = "void foo();" →
            ∃ t', tags p' !! i = Some t' ∧ SkipMe t' = true
                  ∧ Prototype t' = "void foo();") as Hshadow.
  { intros i t Ht Hpt.
    destruct (shadowed_suppressed _ p' i j t tp Hrun Hj Hkp Hplain Ht)
      as (t' & ? & _ & ? & ?); [congruence|]. exists t'. split; [done|]. split; congruence. }
  pose proof (Forall2_length _ _ _ Hstep) as Hlen.
  destruct Horder as [-> | ->];
    (destruct (Hshadow 0%nat _ eq_refl) as (a & Ha & Hsa & Hpa); [done|];
     destruct (Hshadow 1%nat _ eq_refl) as (b & Hb & Hsb & Hpb); [done|];
     destruct (tags p') as [|a' [|b' [|??]]]; simplify_eq/=; by rewrite Hsa, Hsb, Hpa, Hpb).
Qed.

(** *** The duplicate resolver *)

Lemma skipDuplicatesFrom_app m ts1 ts2 :
  skipDuplicatesFrom m (ts1 ++ ts2) =
    skipDuplicatesFrom m ts1 ++ skipDuplicatesFrom (definedAfter m ts1) ts2.
Proof.
  revert m. induction ts1 as [|t ts1 IH]; intros m; [done|].
  cbn [app skipDuplicatesFrom definedAfter]. case_match; cbn [app]; by rewrite IH.
Qed.

(** the declarations seen are those of the tags that were not suppressed when
    the loop reached them *)
Lemma definedAfter_spec m ts k :
  mapIndex (definedAfter m ts) k = true
  ↔ mapIndex m k = true ∨ ∃ u, u ∈ ts ∧ SkipMe u = false ∧ Prototype u = k.
Proof.
  revert m. induction ts as [|t ts IH]; intros m; cbn [definedAfter].
  - split; [auto|]. intros [?|(? & []%elem_of_nil & _)]. done.
  - assert (∀ P : Prop, (∃ u, u ∈ t :: ts ∧ SkipMe u = false ∧ Prototype u = k)
              ↔ (SkipMe t = false ∧ Prototype t = k)
                ∨ ∃ u, u ∈ ts ∧ SkipMe u = false ∧ Prototype u = k) as Hcons.
    { intros _. split.
      - intros (u & [->|Hu]%elem_of_cons & Hsu & Hpu); [by left|right; by exists u].
      - intros [[Hst Hpt]|(u & Hu & Hsu & Hpu)]; [exists t|exists u];
          by rewrite elem_of_cons; auto. }
    rewrite (Hcons True). clear Hcons.
    destruct (mapIndex m (Prototype t)) eqn:Hseen, (SkipMe t) eqn:Hs; cbn [negb andb];
      rewrite IH, ?mapIndex_insert, ?orb_true_iff, ?bool_decide_eq_true.
    + split; [intros [?|?]; auto|]. intros [?|[[? _]|?]]; auto. done.
    + split; [intros [?|?]; auto|]. intros [?|[[_ <-]|?]]; auto.
    + split; [intros [?|?]; auto|]. intros [?|[[? _]|?]]; auto. done.
    + split; [intros [[?|?]|?]; auto|]. intros [?|[[_ ?]|?]]; auto.
Qed.

(** C10 — In the duplicate resolver a tag that is already suppressed when
    the loop reaches it registers nothing in the set of declarations seen.
    So when every earlier tag with the declaration of a tag [t] was suppressed
    by an earlier stage, and [t] is not, [t] is kept: it comes out of
    [skipDuplicates] as it went in, not suppressed as a duplicate. *)
Theorem first_unsuppressed_is_kept p i t :
  tags p !! i = Some t →
  SkipMe t = false →
  (∀ j u, (j < i)%nat → tags p !! j = Some u → Prototype u = Prototype t →
          SkipMe u = true) →
  tags (skipDuplicates p) !! i = Some t
  ∧ (∀ definedPrototypes u,
       SkipMe u = true → definedAfter definedPrototypes [u] = definedPrototypes).
Proof.
  intros Ht Hs Hearlier. split.
  - cbn [skipDuplicates withTags tags].
    rewrite <- (take_drop_middle _ _ _ Ht), skipDuplicatesFrom_app.
    assert (length (skipDuplicatesFrom ∅ (take i (tags p))) = i) as Hlen.
    { rewrite <- (Forall2_length _ _ _ (skipDuplicatesFrom_step ∅ (take i (tags p)))).
      apply length_take_le. apply lookup_lt_Some in Ht. lia. }
    rewrite lookup_app_r, Hlen, Nat.sub_diag by lia.
    cbn [skipDuplicatesFrom lookup list_lookup].
    destruct (mapIndex (definedAfter ∅ (take i (tags p))) (Prototype t)) eqn:Hseen.
    + apply definedAfter_spec in Hseen as [Hempty|(u & Hu & Hsu & Hpu)].
      * by rewrite mapIndex_empty in Hempty.
      * apply list_elem_of_lookup_1 in Hu as [j Hj].
        apply lookup_take_Some in Hj as [Hj Hlt].
        rewrite (Hearlier j u Hlt Hj Hpu) in Hsu. done.
    + by rewrite Hs.
  - intros m u Hu. cbn [definedAfter]. by rewrite Hu, andb_false_r.
Qed.

Lemma skipTagsWhere_id skipFunc p :
  Forall (λ t, SkipMe t = false → skipFunc t = false) (tags p) →
  skipTagsWhere skipFunc p = p.
Proof.
  destruct p as [ts file]. unfold skipTagsWhere, withTags. cbn [tags mainFile].
  intros Hts. f_equal. induction Hts as [|t ts Ht _ IH]; [done|].
  cbn [fmap list_fmap] in *. rewrite IH. f_equal.
  destruct (SkipMe t) eqn:Hs; [done|]. cbn [negb]. rewrite (Ht eq_refl), <- Hs.
  apply withSkipMe_same.
Qed.

Lemma removeDefinedProtypes_id p :
  Forall (λ t, Kind t ≠ KIND_PROTOTYPE) (tags p) → removeDefinedProtypes p = p.
Proof.
  intros Hkinds. unfold removeDefinedProtypes.
  assert (∀ k, mapIndex (collectPrototypes (tags p)) k = false) as Hnone.
  { intros k. apply not_true_is_false. intros (tp & Htp & Hkind & _)%collectPrototypes_spec.
    by eapply Forall_forall in Hkinds. }
  destruct p as [ts file]. unfold withTags. cbn [tags mainFile] in *. f_equal.
  clear Hkinds. generalize dependent (collectPrototypes ts). intros m Hnone.
  induction ts as [|t ts IH]; [done|].
  cbn [fmap list_fmap] in *. by rewrite Hnone, IH.
Qed.

(** C6, as the code has it — Deduplication.  When a parser that holds no
    tags decodes the rows to three tags of kind [function] (so no tag of kind
    [prototype]), none in a class, struct or namespace, with the same
    declaration [int bar(int);], [Parse] returns the three tags in their
    order, the second and the third suppressed.  The first is suppressed
    exactly when the consistency filter rejects it, as the synthesizer left
    it: exactly one tag, the first, is kept when the filter accepts it, and
    none is kept when it does not. *)
Theorem duplicates_keep_first p ctagsOutput mainFile' t1 t2 t3 :
  tags p = [] →
  decode ctagsOutput = Some [t1; t2; t3] →
  Forall (λ t, Kind t = KIND_FUNCTION ∧ isHandled t = true
               ∧ Prototype t = "int bar(int);") [t1; t2; t3] →
  ∃ out p',
    Parse findTemplateMultiline prototypeAndCodeDontMatch p ctagsOutput mainFile'
      = Some (out, p')
    ∧ origin <$> out = origin <$> [t1; t2; t3]
    ∧ SkipMe <$> out =
        [prototypeAndCodeDontMatch mainFile' (plainModifiers t1); true; true]
    ∧ Prototype <$> out = ["int bar(int);"; "int bar(int);"; "int bar(int);"].
Proof.
  intros Hfresh Hdec Htags.
  assert (Forall (λ t, SkipMe t = false) [t1; t2; t3]) as Hnew.
  { apply decode_spec in Hdec as [-> _]. by apply Forall_fmap, Forall_forall. }
  rewrite Parse_stages, Hdec, Hfresh. cbn [mbind option_bind app].
  set (p0 := mkParser [t1; t2; t3] mainFile').
  unfold stages, runStages. cbn [foldM runStage mbind option_bind].
  rewrite (skipTagsWhere_id tagIsUnknown p0).
  2:{ eapply Forall_impl; [exact Htags|]. intros t (Hkind & _) _.
      unfold tagIsUnknown. by rewrite Hkind. }
  rewrite (skipTagsWhere_id tagIsUnhandled p0).
  2:{ eapply Forall_impl; [exact Htags|]. intros t (_ & Hscope & _) _.
      unfold tagIsUnhandled. by rewrite Hscope. }
  cbn [mbind option_bind].
  apply Forall_cons in Htags as [(Hk1 & _ & Hp1) Htags], Hnew as [Hs1 Hnew].
  apply Forall_cons in Htags as [(Hk2 & _ & Hp2) Htags], Hnew as [Hs2 Hnew].
  apply Forall_cons in Htags as [(Hk3 & _ & Hp3) _], Hnew as [Hs3 _].
  assert (addPrototypes findTemplateMultiline p0 =
            Some (mkParser [plainModifiers t1; plainModifiers t2; plainModifiers t3]
                    mainFile')) as ->.
  { unfold addPrototypes, p0. cbn [tags mapM]. rewrite Hs1, Hs2, Hs3. cbn [negb].
    rewrite !addPrototype_plain by (by rewrite ?Hp1, ?Hp2, ?Hp3). done. }
  cbn [mbind option_bind].
  rewrite removeDefinedProtypes_id.
  2:{ cbn [tags]. repeat constructor; unfold plainModifiers; tag_simpl;
        by rewrite ?Hk1, ?Hk2, ?Hk3. }
  unfold skipDuplicates, withTags. cbn [tags mainFile skipDuplicatesFrom].
  assert (∀ t, Prototype (plainModifiers t) = Prototype t
               ∧ SkipMe (plainModifiers t) = SkipMe t
               ∧ origin (plainModifiers t) = origin t) as Hplain by (by intros []).
  destruct (Hplain t1) as (-> & -> & Ho1), (Hplain t2) as (-> & -> & Ho2),
    (Hplain t3) as (-> & -> & Ho3).
  rewrite Hp1, Hp2, Hp3, Hs1, Hs2, Hs3, mapIndex_empty, !mapIndex_insert.
  cbn [negb andb orb bool_decide decide_rel]. rewrite bool_decide_eq_true_2 by done.
  cbn [negb andb orb skipTagsWhere withTags tags mainFile fmap list_fmap].
  assert (SkipMe (plainModifiers t1) = false) as -> by (by destruct t1).
  change (SkipMe (withSkipMe true (plainModifiers t2))) with true.
  change (SkipMe (withSkipMe true (plainModifiers t3))) with true.
  cbn [negb].
  eexists _, _. split; [done|]. cbn [fmap list_fmap].
  assert (∀ b t, SkipMe (withSkipMe b t) = b ∧ origin (withSkipMe b t) = origin t
                 ∧ Prototype (withSkipMe b t) = Prototype t) as Hskip by (by intros ? []).
  destruct (Hskip (prototypeAndCodeDontMatch mainFile' (plainModifiers t1))
              (plainModifiers t1)) as (-> & -> & ->).
  destruct (Hskip true (plainModifiers t2)) as (_ & -> & ->).
  destruct (Hskip true (plainModifiers t3)) as (_ & -> & ->).
  destruct (Hplain t1) as (-> & _ & ->), (Hplain t2) as (-> & _ & ->),
    (Hplain t3) as (-> & _ & ->).
  by rewrite Hp1, Hp2, Hp3.
Qed.

(** *** The synthesizer on templates *)

Lemma addPrototypes_lookup p p' i t :
  addPrototypes findTemplateMultiline p = Some p' →
  tags p !! i = Some t →
  ∃ t', tags p' !! i = Some t'
        ∧ (if negb (SkipMe t) then addPrototype findTemplateMultiline t else Some t)
          = Some t'.
Proof.
  unfold addPrototypes. intros Hadd Ht.
  destruct (mapM _ (tags p)) as [ts|] eqn:Hts; [|done].
  cbn [mbind option_bind] in Hadd. simplify_eq. cbn [withTags tags].
  apply mapM_Some_1 in Hts. by eapply Forall2_lookup_l in Hts.
Qed.

Lemma app_String_assoc s c t : s +:+ String c t = (s +:+ String c "") +:+ t.
Proof. induction s as [|a s IH]; [done|]. rewrite !app_String. by f_equal. Qed.

(** C2, as the code has it — Template reconstruction.  For a tag that is not
    suppressed and whose declaration and snippet both begin with [template],
    the synthesizer returns and replaces the declaration by the text cut out
    of the snippet: everything before the first opening brace if there is
    one, otherwise everything up to and including the last closing
    parenthesis, followed by a semicolon.  The blank that stands before the
    brace is part of that text: for the snippet
    [template <typename T> T add(T a, T b) {] the declaration ends in a blank
    and a semicolon. *)
Theorem template_from_snippet p i tag :
  tags p !! i = Some tag →
  SkipMe tag = false →
  HasPrefix (Prototype tag) TEMPLATE = true →
  HasPrefix (Code tag) TEMPLATE = true →
  ∃ p' decl,
    addPrototypes findTemplateMultiline p = Some p'
    ∧ tags p' !! i = Some (withPrototype decl tag)
    ∧ snippetDeclaration (Code tag) decl
    ∧ (Code tag = "template <typename T> T add(T a, T b) {" →
       decl = "template <typename T> T add(T a, T b) ;").
Proof.
  intros Ht Hs Hproto Hcode.
  destruct (addPrototypes_step p) as (p' & Hadd & _).
  destruct (addPrototypes_lookup p p' i tag Hadd Ht) as (t' & Ht' & Hsynth).
  rewrite Hs in Hsynth. cbn [negb] in Hsynth.
  rewrite addPrototype_template in Hsynth by done. simplify_eq.
  eexists p', _. split; [done|]. split; [done|]. split.
  - unfold snippetDeclaration.
    destruct (cut "{" (Code tag)) as [[pre post]|] eqn:Hcut.
    { left. apply cut_Some in Hcut as [? ?]. by exists pre, post. }
    right. apply cut_None in Hcut.
    destruct (cutLast ")" (Code tag)) as [[pre post]|] eqn:Hlast.
    + left. split; [done|]. apply cutLast_Some in Hlast as [? ?].
      exists pre, post. split; [done|]. split; [done|]. by rewrite <- app_String_assoc.
    + right. by apply cutLast_None in Hlast.
  - by intros ->.
Qed.

(** *** Rows that decode *)

Lemma fieldOf_prefix key part v :
  fieldOf key part = Some v → HasPrefix part (key +:+ ":") = true.
Proof.
  unfold fieldOf. destruct (cut ":" part) as [[k rest]|] eqn:Hcut; [|done].
  destruct (String.eqb_spec k key) as [->|]; [|done]. intros _.
  apply cut_Some in Hcut as [-> _]. apply HasPrefix_app. exists rest.
  apply app_String_assoc.
Qed.

Lemma lastValue_absent key fields : absent key fields → lastValue key fields = None.
Proof.
  unfold lastValue. induction 1 as [|part fields Hpart _ IH]; [done|].
  cbn [omap list_omap]. destruct (fieldOf key part) as [v|] eqn:Hv; [|done].
  apply fieldOf_prefix in Hv. congruence.
Qed.

(** C3, as the code has it — The rows the decoder is given are the lines of
    the buffer with their leading and trailing white space trimmed, the empty
    ones left out.  The decoder returns on every row that has at least two
    tab-separated fields and whose closing marker, when the row has both
    markers, does not start before the end of the opening one; fields in any
    order, unknown fields and fields without a colon are fine.  On a buffer
    whose rows, so trimmed, are all such rows [Parse] returns, with one tag
    for each row; each tag is the one [decodeSpec] describes, and a key that
    no field of the row has leaves the empty string, or zero for the line. *)
Theorem decodable_rows_never_panic p ctagsOutput mainFile' :
  Forall (λ row, rowDecodable row = true) (removeEmpty (Split ctagsOutput newline)) →
  ∃ out p',
    Parse findTemplateMultiline prototypeAndCodeDontMatch p ctagsOutput mainFile'
      = Some (out, p')
    ∧ origin <$> out =
        origin <$> (tags p ++ (decodeSpec <$> removeEmpty (Split ctagsOutput newline)))
    ∧ ∀ row, row ∈ removeEmpty (Split ctagsOutput newline) →
        ∃ tag, parseTag row = Some tag
          ∧ tag = decodeSpec row
          ∧ SkipMe tag = false
          ∧ let fields := drop 2 (Split row tab) in
            (absent "kind" fields → Kind tag = "")
            ∧ (absent "line" fields → Line tag = 0)
            ∧ (absent "typeref" fields → Typeref tag = "")
            ∧ (absent "signature" fields → Signature tag = "")
            ∧ (absent "class" fields → Class tag = "")
            ∧ (absent "struct" fields → Struct tag = "")
            ∧ (absent "namespace" fields → Namespace tag = "").
Proof.
  intros Hrows. pose proof (decode_total _ Hrows) as Hdec.
  destruct (Parse_run p ctagsOutput mainFile' _ Hdec) as (p' & HParse & _ & Hstep).
  exists (tags p'), p'. split; [done|]. split; [by apply stageStep_origin|].
  intros row Hrow. exists (decodeSpec row).
  rewrite parseTag_decode. eapply Forall_forall in Hrows as ->; [|done].
  split; [done|]. split; [done|]. split; [done|]. cbv zeta. unfold decodeSpec. tag_simpl.
  repeat split; intros ->%lastValue_absent; done.
Qed.

(** the converse: one row that does not decode makes [Parse] panic *)
Lemma Parse_panics p ctagsOutput mainFile' row :
  row ∈ removeEmpty (Split ctagsOutput newline) → rowDecodable row = false →
  Parse findTemplateMultiline prototypeAndCodeDontMatch p ctagsOutput mainFile' = None.
Proof.
  intros Hrow Hbad. rewrite Parse_stages.
  destruct (decode ctagsOutput) as [decoded|] eqn:Hdec; [|done].
  apply decode_spec in Hdec as [_ Hok]. eapply Forall_forall in Hok; [|done]. congruence.
Qed.

(** *** The line number *)




End Pipeline.

(** ** White space and blank rows *)

Section TrimFacts.

Implicit Types (s t u : string) (runes : list string).

Lemma app_assoc_string s t u : (s +:+ t) +:+ u = s +:+ t +:+ u.
Proof. induction s as [|a s IH]; [done|]. rewrite !app_String. by f_equal. Qed.

Lemma app_empty_r s : s +:+ "" = s.
Proof. induction s as [|a s IH]; [done|]. rewrite app_String. by f_equal. Qed.

Lemma rev_app_spec s t : String.rev_app s t = String.rev s +:+ t.
Proof.
  unfold String.rev. revert t. induction s as [|a s IH]; intros t; [done|].
  cbn [String.rev_app]. by rewrite IH, (IH (String a "")), app_assoc_string.
Qed.

Lemma rev_String a s : String.rev (String a s) = String.rev s +:+ String a "".
Proof. unfold String.rev at 1. cbn [String.rev_app]. apply rev_app_spec. Qed.

Lemma rev_append s t : String.rev (s +:+ t) = String.rev t +:+ String.rev s.
Proof.
  induction s as [|a s IH]; [by rewrite app_empty_l, app_empty_r|].
  by rewrite app_String, !rev_String, IH, app_assoc_string.
Qed.

Lemma rev_rev s : String.rev (String.rev s) = s.
Proof.
  induction s as [|a s IH]; [done|]. by rewrite rev_String, rev_append, IH.
Qed.

Lemma length_rev s : String.length (String.rev s) = String.length s.
Proof.
  induction s as [|a s IH]; [done|]. rewrite rev_String, length_app, IH. simpl. lia.
Qed.

Lemma runePrefix_None runes s :
  runePrefix runes s = None ↔ Forall (λ r, HasPrefix s r = false) runes.
Proof.
  induction runes as [|r runes IH]; cbn [runePrefix]; [by split; [constructor|]|].
  rewrite Forall_cons, <- IH. destruct (HasPrefix s r); [|by split; [|intros [_ ?]]].
  split; [done|]. by intros [? _].
Qed.

Lemma runePrefix_None_prefix runes s t :
  runePrefix runes (s +:+ t) = None → runePrefix runes s = None.
Proof.
  rewrite !runePrefix_None. intros Hst. eapply Forall_impl; [exact Hst|].
  intros r Hr. cbn beta in Hr. apply not_true_is_false. intros [rest ->]%HasPrefix_app.
  rewrite app_assoc_string in Hr.
  by rewrite (proj2 (HasPrefix_app _ r) (ex_intro _ (rest +:+ t) eq_refl)) in Hr.
Qed.

Lemma trimRunes_suffix rounds runes s : ∃ pre, s = pre +:+ trimRunes rounds runes s.
Proof.
  revert s. induction rounds as [|rounds IH]; intros s; [by exists ""|].
  cbn [trimRunes]. destruct (runePrefix runes s) as [n|] eqn:Hn; [|by exists ""].
  apply runePrefix_Some in Hn as (r & _ & -> & [rest ->]%HasPrefix_app).
  rewrite dropBytes_app. destruct (IH rest) as [pre Hpre].
  exists (r +:+ pre). by rewrite app_assoc_string, <- Hpre.
Qed.

Lemma trimRunes_fixed rounds runes s :
  runePrefix runes s = None → trimRunes rounds runes s = s.
Proof. intros Hs. destruct rounds; [done|]. cbn [trimRunes]. by rewrite Hs. Qed.

Lemma spaceRunes_nonempty : Forall (λ r, r ≠ "") (String.rev <$> spaceRunes).
Proof. by repeat constructor. Qed.

Lemma TrimSpace_start s : ¬ startsWithSpace (TrimSpace s).
Proof.
  unfold startsWithSpace, TrimSpace, TrimRightSpace.
  set (x := TrimLeftSpace s).
  destruct (trimRunes_suffix (String.length x) (String.rev <$> spaceRunes) (String.rev x))
    as [pre Hpre].
  set (y := trimRunes _ _ _) in *.
  assert (x = String.rev y +:+ String.rev pre) as Hx
    by (by rewrite <- rev_append, <- Hpre, rev_rev).
  pose proof (TrimLeftSpace_done s) as Hdone. fold x in Hdone. rewrite Hx in Hdone.
  apply runePrefix_None_prefix in Hdone. rewrite Hdone. by intros [? ?].
Qed.

Lemma TrimSpace_end s : ¬ endsWithSpace (TrimSpace s).
Proof.
  unfold endsWithSpace, TrimSpace, TrimRightSpace. rewrite rev_rev.
  rewrite trimRunes_done; [by intros [? ?]|apply spaceRunes_nonempty|].
  by rewrite length_rev.
Qed.

Lemma TrimSpace_fixed s : ¬ startsWithSpace s → ¬ endsWithSpace s → TrimSpace s = s.
Proof.
  unfold startsWithSpace, endsWithSpace. intros Hstart Hend.
  unfold TrimSpace, TrimLeftSpace, TrimRightSpace.
  rewrite (trimRunes_fixed _ spaceRunes s) by (by destruct (runePrefix spaceRunes s); [destruct Hstart|]).
  rewrite trimRunes_fixed, rev_rev; [done|].
  by destruct (runePrefix _ (String.rev s)); [destruct Hend|].
Qed.

(** X1 — [removeEmpty] returns rows that are not empty and neither start nor
    end with white space, in the order of the rows it was given; running it
    again on its result changes nothing. *)
Theorem removeEmpty_trimmed rows :
  Forall (λ row, row ≠ "" ∧ ¬ startsWithSpace row ∧ ¬ endsWithSpace row)
    (removeEmpty rows)
  ∧ removeEmpty rows `sublist_of` TrimSpace <$> rows
  ∧ removeEmpty (removeEmpty rows) = removeEmpty rows.
Proof.
  assert (Forall (λ row, row ≠ "" ∧ ¬ startsWithSpace row ∧ ¬ endsWithSpace row)
            (removeEmpty rows)) as Hrows.
  { unfold removeEmpty. apply Forall_forall. intros row [Hlen Hrow]%list_elem_of_filter.
    apply list_elem_of_fmap in Hrow as (raw & -> & _).
    split; [|split; [apply TrimSpace_start|apply TrimSpace_end]].
    intros Hempty. rewrite Hempty in Hlen. by vm_compute in Hlen. }
  split; [done|]. split; [apply sublist_filter|].
  induction Hrows as [|row rest (Hne & Hstart & Hend) _ IH]; [done|].
  unfold removeEmpty in *. cbn [fmap list_fmap]. rewrite (TrimSpace_fixed row) by done.
  rewrite filter_cons_True; [by rewrite IH|].
  destruct row; [done|]. rewrite len_String. pose proof (len_nonneg row). lia.
Qed.

End TrimFacts.

(** ** Normalising a declaration *)

Section NormaliseFacts.

Implicit Types (s t : string) (c d : ascii).

Lemma Replace_byte c s : Replace s (String c "") "" = withoutByte c s.
Proof.
  unfold Replace. induction s as [|a s IH]; [done|].
  cbn [replaceFrom HasPrefix withoutByte String.length Nat.sub].
  rewrite HasPrefix_empty, andb_true_r, IH. by destruct (Ascii.eqb c a).
Qed.

Lemma withoutByte_app c s t : withoutByte c (s +:+ t) = withoutByte c s +:+ withoutByte c t.
Proof.
  induction s as [|a s IH]; [done|]. rewrite app_String. cbn [withoutByte].
  destruct (Ascii.eqb c a); [done|]. by rewrite app_String, IH.
Qed.

Lemma withoutByte_absent c s : hasByte c s = false → withoutByte c s = s.
Proof.
  induction s as [|a s IH]; [done|]. cbn [hasByte withoutByte].
  intros [-> Hs]%orb_false_iff. by rewrite IH.
Qed.

Lemma hasByte_withoutByte c d s :
  hasByte c (withoutByte d s) = hasByte c s && negb (Ascii.eqb c d).
Proof.
  induction s as [|a s IH]; [done|]. cbn [hasByte withoutByte].
  destruct (Ascii.eqb_spec d a) as [->|Hda].
  - rewrite IH. by destruct (Ascii.eqb c a), (hasByte c s).
  - cbn [hasByte]. rewrite IH. destruct (Ascii.eqb_spec c a) as [->|_]; [|done].
    apply not_eq_sym, Ascii.eqb_neq in Hda as ->. done.
Qed.

(** X2 — [removeSpacesAndTabs] removes every blank and every tab and nothing
    else: what it returns is the other bytes of the string in their order.  It
    has no blank and no tab, it is the string itself when that has neither,
    and it goes through concatenation. *)
Theorem removeSpacesAndTabs_spec s :
  removeSpacesAndTabs s = withoutByte tab (withoutByte " " s)
  ∧ hasByte " " (removeSpacesAndTabs s) = false
  ∧ hasByte tab (removeSpacesAndTabs s) = false
  ∧ (hasByte " " s = false → hasByte tab s = false → removeSpacesAndTabs s = s)
  ∧ ∀ t, removeSpacesAndTabs (s +:+ t) = removeSpacesAndTabs s +:+ removeSpacesAndTabs t.
Proof.
  assert (∀ u, removeSpacesAndTabs u = withoutByte tab (withoutByte " " u)) as Hspec
    by (intros u; unfold removeSpacesAndTabs; by rewrite !Replace_byte).
  split; [done|]. rewrite !Hspec. split; [|split; [|split]].
  - rewrite !hasByte_withoutByte. by rewrite Ascii.eqb_refl, andb_false_r.
  - rewrite hasByte_withoutByte. by rewrite Ascii.eqb_refl, andb_false_r.
  - intros Hblank Htab. by rewrite (withoutByte_absent " "), withoutByte_absent.
  - intros t. by rewrite !Hspec, !withoutByte_app.
Qed.

(** X3 — [removeTralingSemicolon] panics on the empty string; on any other
    string it returns the string without its last byte, whether that byte is
    a semicolon or not. *)
Theorem removeTralingSemicolon_spec s c :
  removeTralingSemicolon "" = None
  ∧ removeTralingSemicolon (s +:+ String c "") = Some s.
Proof.
  split; [done|]. unfold removeTralingSemicolon.
  replace (len (s +:+ String c "") - 1) with (len s)
    by (rewrite len_app; change (len (String c "")) with 1; lia).
  apply sliceTo_app.
Qed.

End NormaliseFacts.

(** ** What the decoder reads from a row *)

Section RowFacts.

Implicit Types (s t a rest : string) (c sep : ascii).

Lemma hasByte_app c s t : hasByte c (s +:+ t) = hasByte c s || hasByte c t.
Proof.
  induction s as [|x s IH]; [done|]. rewrite app_String. cbn [hasByte].
  by rewrite IH, orb_assoc.
Qed.

Lemma Split_app sep s t :
  hasByte sep s = false → Split (s +:+ String sep t) sep = s :: Split t sep.
Proof.
  induction s as [|x s IH]; cbn [hasByte].
  - intros _. rewrite app_empty_l. cbn [Split]. by rewrite Ascii.eqb_refl.
  - intros [Hx Hs]%orb_false_iff. rewrite app_String. cbn [Split].
    rewrite Ascii.eqb_sym, Hx, (IH Hs). done.
Qed.

Lemma Split_whole sep s : hasByte sep s = false → Split s sep = [s].
Proof.
  induction s as [|x s IH]; cbn [hasByte]; [done|].
  intros [Hx Hs]%orb_false_iff. cbn [Split]. by rewrite Ascii.eqb_sym, Hx, (IH Hs).
Qed.

Lemma Replace_escape s : Replace (escapeBackslashes s) "\\" "\" = s.
Proof.
  unfold Replace. induction s as [|x s IH]; [done|]. cbn [escapeBackslashes].
  destruct (Ascii.eqb_spec x "\") as [->|Hx].
  - cbn [replaceFrom HasPrefix Ascii.eqb Bool.eqb andb String.length Nat.sub].
    rewrite HasPrefix_empty, IH. done.
  - cbn [replaceFrom HasPrefix]. apply not_eq_sym, Ascii.eqb_neq in Hx as ->.
    cbn [andb]. by rewrite IH.
Qed.

Lemma hasByte_escape c s :
  c ≠ "\"%char → hasByte c (escapeBackslashes s) = hasByte c s.
Proof.
  intros Hc. induction s as [|x s IH]; [done|]. cbn [escapeBackslashes hasByte].
  destruct (Ascii.eqb_spec x "\") as [->|_]; cbn [hasByte]; rewrite IH; [|done].
  by apply Ascii.eqb_neq in Hc as ->.
Qed.

(** X4 — The first two fields of a row.  On a row that decodes, made of a
    name, a tab, a file name with its backslashes doubled and then nothing or
    a tab and more fields, the tag gets the name as it stands and the file
    name with the doubling undone. *)
Theorem name_and_file_decoded name file tail row :
  hasByte tab name = false →
  hasByte tab file = false →
  tail = "" ∨ (∃ rest, tail = String tab rest) →
  row = name +:+ String tab (escapeBackslashes file +:+ tail) →
  rowDecodable row = true →
  ∃ tag, parseTag row = Some tag ∧ FunctionName tag = name ∧ Filename tag = file.
Proof.
  intros Hname Hfile Htail -> Hrow. rewrite parseTag_decode, Hrow.
  eexists. split; [done|]. unfold decodeSpec. tag_simpl.
  rewrite (Split_app _ _ _ Hname).
  assert (hasByte tab (escapeBackslashes file) = false) as Hescaped
    by (by rewrite hasByte_escape).
  destruct Htail as [->|[rest ->]].
  - rewrite app_empty_r, (Split_whole _ _ Hescaped). cbn [lookup list_lookup default from_option id].
    by rewrite Replace_escape.
  - rewrite (Split_app _ _ _ Hescaped). cbn [lookup list_lookup default from_option id].
    by rewrite Replace_escape.
Qed.

Lemma Index_first_byte c sub a rest :
  hasByte c a = false → Index (a +:+ String c sub +:+ rest) (String c sub) = len a.
Proof.
  induction a as [|x a IH]; cbn [hasByte].
  - intros _. rewrite app_empty_l.
    assert (HasPrefix (String c sub +:+ rest) (String c sub) = true) as Hprefix
      by (apply HasPrefix_app; by exists rest).
    rewrite app_String in *. cbn [Index]. by rewrite Hprefix.
  - intros [Hx Ha]%orb_false_iff. rewrite app_String. cbn [Index HasPrefix].
    rewrite Hx. cbn [andb]. rewrite (IH Ha), len_String. pose proof (len_nonneg a).
    destruct (Z.ltb_spec (len a) 0); [lia|done].
Qed.

Lemma Index_second_byte c c' a rest :
  c ≠ c' → hasByte c' a = false →
  Index (a +:+ String c (String c' rest)) (String c (String c' "")) = len a.
Proof.
  intros Hc. induction a as [|x a IH]; cbn [hasByte].
  - intros _. rewrite app_empty_l. cbn [Index HasPrefix].
    by rewrite !Ascii.eqb_refl, HasPrefix_empty.
  - intros [Hx Ha]%orb_false_iff. rewrite app_String. cbn [Index].
    assert (HasPrefix (String x (a +:+ String c (String c' rest))) (String c (String c' ""))
            = false) as ->.
    { cbn [HasPrefix]. apply andb_false_iff. right.
      destruct a as [|y a]; [rewrite app_empty_l|rewrite app_String]; cbn [HasPrefix].
      - apply not_eq_sym, Ascii.eqb_neq in Hc as ->. done.
      - cbn [hasByte] in Ha. apply orb_false_iff in Ha as [-> _]. done. }
    rewrite (IH Ha), len_String. pose proof (len_nonneg a).
    destruct (Z.ltb_spec (len a) 0); [lia|done].
Qed.

Lemma substring_middle s t rest :
  String.substring (String.length s) (String.length t) (s +:+ t +:+ rest) = t.
Proof.
  induction s as [|x s IH]; [|by rewrite app_String].
  rewrite app_empty_l. apply substring_prefix.
Qed.

Lemma slice_middle s t rest :
  slice (s +:+ t +:+ rest) (len s) (len s + len t) = Some t.
Proof.
  unfold slice. pose proof (len_nonneg s). pose proof (len_nonneg t).
  pose proof (len_nonneg rest).
  rewrite bool_decide_eq_true_2 by (rewrite !len_app; lia). f_equal.
  replace (len s + len t - len s) with (len t) by lia.
  unfold len. rewrite !Nat2Z.id. apply substring_middle.
Qed.

(** X5 — The code snippet.  On a row with at least two tab-separated fields
    that reads [pre /^ code $/; post], where [pre] has no caret and neither
    [pre] nor [code] has a dollar sign, the decoder returns and the tag's
    code is exactly [code], whatever [code] and [post] hold otherwise (tabs
    and colons included). *)
Theorem code_between_markers pre code post row :
  row = pre +:+ "/^" +:+ code +:+ "$/;" +:+ post →
  hasByte "^" pre = false →
  hasByte "$" pre = false →
  hasByte "$" code = false →
  (2 ≤ length (Split row tab))%nat →
  ∃ tag, parseTag row = Some tag ∧ Code tag = code.
Proof.
  intros -> Hcaret Hdollar Hcode Hparts.
  set (row := pre +:+ "/^" +:+ code +:+ "$/;" +:+ post) in *.
  assert (Index row "/^" = len pre) as Hopen
    by exact (Index_second_byte "/" "^" pre (code +:+ "$/;" +:+ post)
                ltac:(done) Hcaret).
  assert (Index row "$/;" = len (pre +:+ "/^") + len code) as Hclose.
  { unfold row.
    replace (pre +:+ "/^" +:+ code +:+ "$/;" +:+ post)
      with ((pre +:+ "/^" +:+ code) +:+ "$/;" +:+ post)
      by (by rewrite !app_assoc_string).
    rewrite (Index_first_byte "$" "/;" (pre +:+ "/^" +:+ code) post);
      [by rewrite <- app_assoc_string, !len_app|].
    by rewrite !hasByte_app, Hdollar, Hcode. }
  assert (rowCode row = Some code) as Hrowcode.
  { unfold rowCode, Contains. rewrite Hopen, Hclose.
    pose proof (len_nonneg pre). pose proof (len_nonneg code). rewrite len_app.
    change (len "/^") with 2.
    destruct (Z.leb_spec 0 (len pre)); [|lia].
    destruct (Z.leb_spec 0 (len pre + 2 + len code)); [|lia]. cbn [andb].
    replace (len pre + 2) with (len (pre +:+ "/^")) by (by rewrite len_app).
    unfold row. rewrite <- (app_assoc_string pre "/^"). apply slice_middle. }
  rewrite parseTag_decode. unfold rowDecodable.
  rewrite bool_decide_eq_true_2 by done. rewrite Hopen, Hclose, len_app.
  change (len "/^") with 2. pose proof (len_nonneg code).
  destruct (Z.leb_spec (len pre + 2) (len pre + 2 + len code)); [|lia].
  rewrite orb_true_r. cbn [andb]. eexists. split; [done|].
  unfold decodeSpec. tag_simpl. by rewrite Hrowcode.
Qed.

Lemma lastValue_Permutation key fields fields' :
  fields ≡ₚ fields' → (length (omap (fieldOf key) fields) ≤ 1)%nat →
  lastValue key fields = lastValue key fields'.
Proof.
  intros Hperm Honce. unfold lastValue.
  assert (omap (fieldOf key) fields ≡ₚ omap (fieldOf key) fields') as Hvalues
    by (by rewrite Hperm).
  destruct (omap (fieldOf key) fields) as [|v [|v' vs]]; [| |simpl in Honce; lia].
  - by apply Permutation_nil_l in Hvalues as <-.
  - by apply Permutation_singleton_l in Hvalues as <-.
Qed.

(** X13 — The order of the fields does not matter.  Two rows that decode,
    with the same name and file and the same fields after them in another
    order, no key occurring twice, give the same tag, up to the code snippet
    (which is cut out of the raw row). *)
Theorem field_order_is_immaterial row row' name file fields fields' :
  Split row tab = name :: file :: fields →
  Split row' tab = name :: file :: fields' →
  fields ≡ₚ fields' →
  keysOnce fields →
  rowDecodable row = true →
  rowDecodable row' = true →
  ∃ tag tag', parseTag row = Some tag ∧ parseTag row' = Some tag'
              ∧ withCode "" tag' = withCode "" tag.
Proof.
  intros Hparts Hparts' Hperm Honce Hrow Hrow'.
  rewrite !parseTag_decode, Hrow, Hrow'. eexists _, _. split; [done|]. split; [done|].
  unfold decodeSpec. rewrite Hparts, Hparts'. cbn [drop lookup list_lookup].
  by rewrite <- !(lastValue_Permutation _ fields fields' Hperm (Honce _)).
Qed.

End RowFacts.

(** ** What comes out of the pipeline *)

Section Outcome.

Variable findTemplateMultiline : CTag → string.
Variable prototypeAndCodeDontMatch : Path → CTag → bool.

(** the six stages, written out *)
Lemma stages_run p :
  runStages findTemplateMultiline prototypeAndCodeDontMatch stages p =
    p3 ← addPrototypes findTemplateMultiline
           (skipTagsWhere tagIsUnhandled (skipTagsWhere tagIsUnknown p));
    Some (skipTagsWhere (prototypeAndCodeDontMatch (mainFile p3))
            (skipDuplicates (removeDefinedProtypes p3))).
Proof.
  unfold runStages, stages. cbn [foldM runStage mbind option_bind].
  by destruct (addPrototypes _ _).
Qed.

Lemma unknown_kind_out p p' i t :
  runStages findTemplateMultiline prototypeAndCodeDontMatch stages p = Some p' →
  tags p !! i = Some t → tagIsUnknown t = true →
  ∃ t', tags p' !! i = Some t' ∧ SkipMe t' = true.
Proof.
  intros Hrun Ht Hunknown.
  change (runStages _ _ stages p)
    with (runStages findTemplateMultiline prototypeAndCodeDontMatch
            [ScopeFilter; Synthesizer; ShadowResolver; DuplicateResolver; ConsistencyFilter]
            (skipTagsWhere tagIsUnknown p)) in Hrun.
  pose proof (skipTagsWhere_lookup tagIsUnknown p i t Ht) as Ht1. rewrite Hunknown in Ht1.
  eexists. split; [eapply runStages_frozen; [exact Hrun|exact Ht1|]|];
    by destruct t as [? ? ? ? ? ? ? ? ? []].
Qed.

Lemma unhandled_out p p' i t :
  runStages findTemplateMultiline prototypeAndCodeDontMatch stages p = Some p' →
  tags p !! i = Some t → tagIsUnhandled t = true →
  ∃ t', tags p' !! i = Some t' ∧ SkipMe t' = true.
Proof.
  intros Hrun Ht Hunhandled.
  change (runStages _ _ stages p)
    with (runStages findTemplateMultiline prototypeAndCodeDontMatch
            [Synthesizer; ShadowResolver; DuplicateResolver; ConsistencyFilter]
            (skipTagsWhere tagIsUnhandled (skipTagsWhere tagIsUnknown p))) in Hrun.
  pose proof (skipTagsWhere_lookup tagIsUnknown p i t Ht) as Ht1.
  set (t1 := if negb (SkipMe t) then _ else t) in *.
  pose proof (skipTagsWhere_lookup tagIsUnhandled _ i t1 Ht1) as Ht2.
  assert (tagIsUnhandled t1 = true) as Hun
    by (unfold t1; by destruct t as [? ? ? ? ? ? ? ? ? []]).
  rewrite Hun in Ht2.
  eexists. split; [eapply runStages_frozen; [exact Hrun|exact Ht2|]|];
    by destruct t1 as [? ? ? ? ? ? ? ? ? []].
Qed.

Lemma prototype_kind_out p p' i t :
  runStages findTemplateMultiline prototypeAndCodeDontMatch stages p = Some p' →
  tags p !! i = Some t → Kind t = KIND_PROTOTYPE →
  ∃ t', tags p' !! i = Some t' ∧ SkipMe t' = true.
Proof.
  intros Hrun Ht Hkind.
  change stages with ([KindFilter; ScopeFilter; Synthesizer]
                      ++ [ShadowResolver] ++ [DuplicateResolver; ConsistencyFilter]) in Hrun.
  rewrite runStages_app in Hrun.
  destruct (runStages_step findTemplateMultiline prototypeAndCodeDontMatch
              [KindFilter; ScopeFilter; Synthesizer] p) as (p3 & Hrun3 & _ & Hstep3).
  rewrite Hrun3 in Hrun. cbn [mbind option_bind] in Hrun.
  change (runStages findTemplateMultiline prototypeAndCodeDontMatch
            ([ShadowResolver] ++ [DuplicateResolver; ConsistencyFilter]) p3)
    with (runStages findTemplateMultiline prototypeAndCodeDontMatch
            [DuplicateResolver; ConsistencyFilter] (removeDefinedProtypes p3)) in Hrun.
  destruct (stageStep_lookup _ _ _ _ Hstep3 Ht) as (t3 & Ht3 & Ho & _).
  apply origin_fields in Ho as (Hkind3 & _).
  assert (mapIndex (collectPrototypes (tags p3)) (Prototype t3) = true) as Hdef.
  { apply collectPrototypes_spec. exists t3. split; [by eapply list_elem_of_lookup_2|].
    split; congruence. }
  exists (withSkipMe true t3). split; [|done].
  eapply runStages_frozen; [exact Hrun| |done].
  by rewrite (removeDefinedProtypes_lookup _ _ _ Ht3), Hdef.
Qed.

Lemma tagIsUnknown_false t :
  tagIsUnknown t = false → Kind t = KIND_FUNCTION ∨ Kind t = KIND_PROTOTYPE.
Proof.
  unfold tagIsUnknown, mapIndex, KNOWN_TAG_KINDS. intros Hknown.
  destruct (decide (Kind t = KIND_PROTOTYPE)) as [|Hp]; [by right|].
  destruct (decide (Kind t = KIND_FUNCTION)) as [|Hf]; [by left|].
  rewrite !lookup_insert_ne, lookup_empty in Hknown by done. done.
Qed.

Lemma isHandled_true t :
  isHandled t = true → Class t = "" ∧ Struct t = "" ∧ Namespace t = "".
Proof.
  unfold isHandled.
  destruct (String.eqb_spec (Class t) ""); [|done].
  destruct (String.eqb_spec (Struct t) ""); [|done].
  by destruct (String.eqb_spec (Namespace t) "").
Qed.

(** X6 — What can be kept.  Once the rows are decoded [Parse] returns, and
    every tag it leaves unsuppressed is of kind [function] and in no class,
    struct or namespace.  A tag of kind [prototype] is never kept: its own
    declaration is among the defined prototypes. *)
Theorem kept_tags_are_free_functions p ctagsOutput mainFile' decoded :
  decode ctagsOutput = Some decoded →
  ∃ out p',
    Parse findTemplateMultiline prototypeAndCodeDontMatch p ctagsOutput mainFile'
      = Some (out, p')
    ∧ Forall (λ t, Kind t = KIND_FUNCTION ∧ Class t = "" ∧ Struct t = ""
                   ∧ Namespace t = "") (kept out).
Proof.
  intros Hdec.
  destruct (Parse_run findTemplateMultiline prototypeAndCodeDontMatch p ctagsOutput
              mainFile' decoded Hdec) as (p' & HParse & Hrun & Hstep).
  exists (tags p'), p'. split; [done|]. apply Forall_forall.
  intros t' [Hs Hin]%list_elem_of_filter. apply list_elem_of_lookup_1 in Hin as [i Ht'].
  destruct (Forall2_lookup_r _ _ _ _ _ Hstep Ht') as (t & Ht & Ho & _).
  apply origin_fields in Ho as (-> & -> & -> & ->).
  change (tags p ++ decoded) with (tags (mkParser (tags p ++ decoded) mainFile')) in Ht.
  destruct (tagIsUnknown t) eqn:Hunknown.
  { destruct (unknown_kind_out _ _ _ _ Hrun Ht Hunknown) as (? & ? & ?). congruence. }
  destruct (tagIsUnhandled t) eqn:Hunhandled.
  { destruct (unhandled_out _ _ _ _ Hrun Ht Hunhandled) as (? & ? & ?). congruence. }
  apply negb_false_iff, isHandled_true in Hunhandled. split; [|done].
  destruct (tagIsUnknown_false t Hunknown) as [|Hproto]; [done|].
  destruct (prototype_kind_out _ _ _ _ Hrun Ht Hproto) as (? & ? & ?). congruence.
Qed.

(** *** No declaration twice *)

Lemma skipDuplicatesFrom_kept definedPrototypes ts :
  NoDup (Prototype <$> kept (skipDuplicatesFrom definedPrototypes ts))
  ∧ Forall (λ t, mapIndex definedPrototypes (Prototype t) = false)
      (kept (skipDuplicatesFrom definedPrototypes ts)).
Proof.
  revert definedPrototypes. induction ts as [|t ts IH]; intros m.
  { split; [constructor|done]. }
  cbn [skipDuplicatesFrom]. unfold kept in *.
  destruct (mapIndex m (Prototype t)) eqn:Hseen, (SkipMe t) eqn:Hs; cbn [negb andb].
  1-3: rewrite filter_cons_False by (by destruct t as [? ? ? ? ? ? ? ? ? []]); apply IH.
  rewrite filter_cons_True by done. cbn [fmap list_fmap].
  destruct (IH (<[Prototype t := true]> m)) as [Hnodup Hfresh].
  assert (Forall (λ u, Prototype t ≠ Prototype u ∧ mapIndex m (Prototype u) = false)
            (filter (λ t, SkipMe t = false)
               (skipDuplicatesFrom (<[Prototype t:=true]> m) ts))) as Hrest.
  { eapply Forall_impl; [exact Hfresh|]. intros u Hu. cbn beta in Hu.
    rewrite mapIndex_insert in Hu. apply orb_false_iff in Hu as [Hne Hu].
    by apply bool_decide_eq_false in Hne. }
  split.
  - apply NoDup_cons. split; [|done].
    intros (u & Hpu & Hu)%list_elem_of_fmap.
    eapply Forall_forall in Hrest as [Hne _]; [|exact Hu]. done.
  - constructor; [done|]. eapply Forall_impl; [exact Hrest|]. by intros u [_ ?].
Qed.

Lemma skipTagsWhere_kept skipFunc p :
  Prototype <$> kept (tags (skipTagsWhere skipFunc p))
    `sublist_of` Prototype <$> kept (tags p).
Proof.
  destruct p as [ts file]. cbn [skipTagsWhere withTags tags]. unfold kept.
  induction ts as [|t ts IH]; [done|]. cbn [fmap list_fmap].
  destruct (SkipMe t) eqn:Hs; cbn [negb].
  - by rewrite !filter_cons_False by congruence.
  - rewrite (filter_cons_True _ t) by done. cbn [fmap list_fmap].
    destruct (skipFunc t) eqn:Hskip.
    + rewrite filter_cons_False by (by destruct t). by apply sublist_cons.
    + rewrite filter_cons_True by (by destruct t). cbn [fmap list_fmap].
      replace (Prototype (withSkipMe false t)) with (Prototype t) by (by destruct t).
      by apply sublist_skip.
Qed.

(** X7 — No declaration twice.  Once the rows are decoded [Parse] returns,
    and no two of the tags it leaves unsuppressed have the same declaration
    text. *)
Theorem kept_declarations_distinct p ctagsOutput mainFile' decoded :
  decode ctagsOutput = Some decoded →
  ∃ out p',
    Parse findTemplateMultiline prototypeAndCodeDontMatch p ctagsOutput mainFile'
      = Some (out, p')
    ∧ NoDup (Prototype <$> kept out).
Proof.
  intros Hdec.
  destruct (Parse_run findTemplateMultiline prototypeAndCodeDontMatch p ctagsOutput
              mainFile' decoded Hdec) as (p' & HParse & Hrun & _).
  exists (tags p'), p'. split; [done|].
  rewrite stages_run in Hrun.
  destruct (addPrototypes _ _) as [p3|]; [|done]. cbn [mbind option_bind] in Hrun.
  simplify_eq. eapply sublist_NoDup; [|apply skipTagsWhere_kept].
  apply skipDuplicatesFrom_kept.
Qed.

(** *** A function of its own is kept *)

Lemma skipDuplicatesFrom_lookup ts i t :
  ts !! i = Some t →
  skipDuplicatesFrom ∅ ts !! i =
    Some (if negb (mapIndex (definedAfter ∅ (take i ts)) (Prototype t)) && negb (SkipMe t)
          then t else withSkipMe true t).
Proof.
  intros Ht. rewrite <- (take_drop_middle _ _ _ Ht) at 1. rewrite skipDuplicatesFrom_app.
  assert (length (skipDuplicatesFrom ∅ (take i ts)) = i) as Hlen.
  { rewrite <- (Forall2_length _ _ _ (skipDuplicatesFrom_step ∅ (take i ts))).
    apply length_take_le. apply lookup_lt_Some in Ht. lia. }
  rewrite lookup_app_r, Hlen, Nat.sub_diag by lia. cbn [skipDuplicatesFrom].
  by case_match.
Qed.

Lemma skipTagsWhere_passes skipFunc p i t :
  tags p !! i = Some t → SkipMe t = false → skipFunc t = false →
  tags (skipTagsWhere skipFunc p) !! i = Some t.
Proof.
  intros Ht Hs Hskip. rewrite (skipTagsWhere_lookup _ _ _ _ Ht), Hs, Hskip. cbn [negb].
  by rewrite <- Hs, withSkipMe_same.
Qed.

Lemma plainModifiers_fields t :
  Prototype (plainModifiers t) = Prototype t ∧ SkipMe (plainModifiers t) = SkipMe t
  ∧ Kind (plainModifiers t) = Kind t ∧ Code (plainModifiers t) = Code t.
Proof. by destruct t. Qed.

(** X8 — A function of its own is kept.  Take a tag that is not suppressed,
    of kind [function], in no class, struct or namespace, whose declaration
    is no template and accepted by the consistency filter, among tags that
    are no templates either and have other declarations.  [Parse] returns it
    unsuppressed at its place, with its declaration as decoded and with the
    modifier [static] exactly when its snippet has [static] and a blank. *)
Theorem fresh_function_is_kept p ctagsOutput mainFile' decoded i t :
  decode ctagsOutput = Some decoded →
  (tags p ++ decoded) !! i = Some t →
  SkipMe t = false →
  Kind t = KIND_FUNCTION →
  isHandled t = true →
  HasPrefix (Prototype t) TEMPLATE = false →
  (∀ j u, (tags p ++ decoded) !! j = Some u → j ≠ i →
          HasPrefix (Prototype u) TEMPLATE = false ∧ Prototype u ≠ Prototype t) →
  prototypeAndCodeDontMatch mainFile' (plainModifiers t) = false →
  ∃ out p',
    Parse findTemplateMultiline prototypeAndCodeDontMatch p ctagsOutput mainFile'
      = Some (out, p')
    ∧ out !! i = Some (plainModifiers t).
Proof.
  intros Hdec Ht Hs Hkind Hscope Hplain Hothers Hmatch.
  destruct (Parse_run findTemplateMultiline prototypeAndCodeDontMatch p ctagsOutput
              mainFile' decoded Hdec) as (p' & HParse & Hrun & _).
  exists (tags p'), p'. split; [done|].
  set (p0 := mkParser (tags p ++ decoded) mainFile') in *.
  change (tags p ++ decoded) with (tags p0) in Ht, Hothers.
  rewrite stages_run in Hrun.
  set (p2 := skipTagsWhere tagIsUnhandled (skipTagsWhere tagIsUnknown p0)) in *.
  destruct (addPrototypes_step findTemplateMultiline p2) as (p3 & Hadd & Hfile & Hstep3).
  rewrite Hadd in Hrun. cbn [mbind option_bind] in Hrun. simplify_eq.
  destruct (plainModifiers_fields t) as (Hpp & Hps & Hpk & _).
  (* the two filters leave the tag alone *)
  assert (tags p2 !! i = Some t) as Ht2.
  { unfold p2. apply skipTagsWhere_passes; [|done|].
    - apply skipTagsWhere_passes; [done..|]. unfold tagIsUnknown. by rewrite Hkind.
    - unfold tagIsUnhandled. by rewrite Hscope. }
  assert (Forall2 stageStep (tags p0) (tags p3)) as Hstep.
  { eapply Forall2_stageStep_trans; [|exact Hstep3].
    eapply Forall2_stageStep_trans; apply skipTagsWhere_step. }
  (* the synthesizer computes its modifiers *)
  assert (tags p3 !! i = Some (plainModifiers t)) as Ht3.
  { destruct (addPrototypes_lookup _ _ _ _ _ Hadd Ht2) as (t3 & Ht3 & Hsynth).
    rewrite Hs in Hsynth. cbn [negb] in Hsynth.
    rewrite addPrototype_plain in Hsynth by done. by simplify_eq. }
  (* no other tag has its declaration *)
  assert (∀ ts j u', Forall2 stageStep (tags p0) ts → ts !! j = Some u' → j ≠ i →
            Prototype u' ≠ Prototype t) as Hother.
  { intros ts j u' Hts Hu' Hj.
    destruct (Forall2_lookup_r _ _ _ _ _ Hts Hu') as (u & Hu & _ & _ & Hsame).
    destruct (Hothers j u Hu Hj) as [Hplainu Hne]. by rewrite (Hsame Hplainu). }
  set (p4 := removeDefinedProtypes p3).
  assert (tags p4 !! i = Some (plainModifiers t)) as Ht4.
  { unfold p4. rewrite (removeDefinedProtypes_lookup _ _ _ Ht3).
    destruct (mapIndex _ _) eqn:Hdef; [|done].
    apply collectPrototypes_spec in Hdef as (tp & Htp & Hkp & Hpt).
    apply list_elem_of_lookup_1 in Htp as [j Htp].
    destruct (decide (j = i)) as [->|Hj].
    - rewrite Ht3 in Htp. simplify_eq. rewrite Hpk, Hkind in Hkp. done.
    - destruct (Hother _ j tp Hstep Htp Hj). congruence. }
  assert (Forall2 stageStep (tags p0) (tags p4)) as Hstep4.
  { eapply Forall2_stageStep_trans; [exact Hstep|apply removeDefinedProtypes_step]. }
  assert (tags (skipDuplicates p4) !! i = Some (plainModifiers t)) as Ht5.
  { cbn [skipDuplicates withTags tags]. rewrite (skipDuplicatesFrom_lookup _ _ _ Ht4).
    rewrite Hps, Hs. destruct (mapIndex _ _) eqn:Hseen; [|done].
    apply definedAfter_spec in Hseen as [Hempty|(u & Hu & _ & Hpu)].
    { by rewrite mapIndex_empty in Hempty. }
    apply list_elem_of_lookup_1 in Hu as [j Hj]. apply lookup_take_Some in Hj as [Hj Hlt].
    destruct (Hother _ j u Hstep4 Hj); [lia|congruence]. }
  apply skipTagsWhere_passes; [done|congruence|].
  replace (mainFile p3) with mainFile' by (by rewrite Hfile). done.
Qed.

(** *** The synthesizer on declarations that are no templates *)

Lemma plainModifiers_idem t : plainModifiers (plainModifiers t) = plainModifiers t.
Proof. by destruct t. Qed.

(** X9 — The static modifier.  On tags whose declarations are no templates
    the synthesizer returns, leaves the suppressed tags and every declaration
    as they are, and gives each other tag the modifier [static] when its
    snippet has [static] followed by a blank and no modifier otherwise,
    whatever modifier the tag had; running it a second time changes nothing. *)
Theorem synthesizer_on_plain_declarations p :
  Forall (λ t, HasPrefix (Prototype t) TEMPLATE = false) (tags p) →
  ∃ p', addPrototypes findTemplateMultiline p = Some p'
        ∧ tags p' = (λ t, if SkipMe t then t else plainModifiers t) <$> tags p
        ∧ addPrototypes findTemplateMultiline p' = Some p'.
Proof.
  set (synth := λ t, if SkipMe t then t else plainModifiers t).
  assert (∀ ts, Forall (λ t, HasPrefix (Prototype t) TEMPLATE = false) ts →
            mapM (λ tag, if negb (SkipMe tag)
                         then addPrototype findTemplateMultiline tag else Some tag) ts
            = Some (synth <$> ts)) as Hsynth.
  { induction 1 as [|t ts Ht _ IH]; [done|]. cbn [mapM]. rewrite IH.
    unfold synth at 2. cbn [fmap list_fmap].
    destruct (SkipMe t); cbn [negb]; [done|]. by rewrite addPrototype_plain. }
  intros Hplain. destruct p as [ts file]. cbn [tags] in *.
  assert (synth <$> (synth <$> ts) = synth <$> ts) as Hidem.
  { rewrite <- list_fmap_compose. apply list_fmap_ext. intros _ t _. unfold synth.
    cbn [compose]. destruct (SkipMe t) eqn:Hs; [by rewrite Hs|].
    destruct (plainModifiers_fields t) as (_ & -> & _). by rewrite Hs, plainModifiers_idem. }
  assert (Forall (λ t, HasPrefix (Prototype t) TEMPLATE = false) (synth <$> ts)) as Hplain'.
  { apply Forall_fmap. eapply Forall_impl; [exact Hplain|]. intros t Ht. cbn [compose].
    unfold synth. destruct (SkipMe t); [done|].
    by destruct (plainModifiers_fields t) as (-> & _). }
  exists (mkParser (synth <$> ts) file). unfold addPrototypes. cbn [tags].
  rewrite (Hsynth ts Hplain), (Hsynth _ Hplain'), Hidem. done.
Qed.

(** *** Declarations end with a semicolon *)

Lemma decodeSpec_semicolon row : endsWithSemicolon (Prototype (decodeSpec row)).
Proof.
  unfold decodeSpec. tag_simpl. eexists. by rewrite <- !app_assoc_string.
Qed.

Lemma addPrototype_semicolon t t' :
  addPrototype findTemplateMultiline t = Some t' →
  endsWithSemicolon (Prototype t) → endsWithSemicolon (Prototype t').
Proof.
  destruct (HasPrefix (Prototype t) TEMPLATE) eqn:Hproto.
  - destruct (HasPrefix (Code t) TEMPLATE) eqn:Hcode.
    + rewrite addPrototype_template by done. intros [= <-] _. by eexists.
    + unfold addPrototype. apply Index_zero in Hproto as ->. cbn [Z.eqb].
      destruct (Z.eqb_spec (Index (Code t) TEMPLATE) 0) as [Hidx|_].
      { apply Index_zero in Hidx. congruence. }
      intros [= <-] _. by eexists.
  - rewrite addPrototype_plain by done. intros [= <-]. by destruct t.
Qed.

Lemma runStage_semicolon stage p p' :
  runStage findTemplateMultiline prototypeAndCodeDontMatch stage p = Some p' →
  Forall (λ t, endsWithSemicolon (Prototype t)) (tags p) →
  Forall (λ t, endsWithSemicolon (Prototype t)) (tags p').
Proof.
  assert (∀ t b, Prototype (withSkipMe b t) = Prototype t) as Hskip by (by intros []).
  assert (∀ (skip : CTag → bool) ts,
            Forall (λ t, endsWithSemicolon (Prototype t)) ts →
            Forall (λ t, endsWithSemicolon (Prototype t))
              ((λ t, if skip t then withSkipMe true t else t) <$> ts)) as Hmap.
  { intros skip ts Hts. apply Forall_fmap. eapply Forall_impl; [exact Hts|].
    intros t Ht. cbn [compose]. destruct (skip t); by rewrite ?Hskip. }
  assert (∀ (skipFunc : CTag → bool) q,
            Forall (λ t, endsWithSemicolon (Prototype t)) (tags q) →
            Forall (λ t, endsWithSemicolon (Prototype t))
              (tags (skipTagsWhere skipFunc q))) as Hwhere.
  { intros skipFunc q Hts. cbn [skipTagsWhere withTags tags].
    apply Forall_fmap. eapply Forall_impl; [exact Hts|].
    intros t Ht. cbn [compose]. destruct (negb (SkipMe t)); by rewrite ?Hskip. }
  destruct stage; cbn [runStage]; intros Hrun Hts; simplify_eq; auto.
  - unfold addPrototypes in Hrun.
    destruct (mapM _ (tags p)) as [ts|] eqn:Hmapped; [|done].
    cbn [mbind option_bind] in Hrun. simplify_eq. cbn [withTags tags].
    apply mapM_Some_1 in Hmapped.
    induction Hmapped as [|t t' ts ts' Ht _ IH]; [done|].
    apply Forall_cons in Hts as [Hsemi Hts]. constructor; [|by apply IH].
    destruct (SkipMe t); cbn [negb] in Ht; [by simplify_eq|].
    by eapply addPrototype_semicolon.
  - cbn [removeDefinedProtypes withTags tags]. by apply Hmap.
  - cbn [skipDuplicates withTags tags]. generalize (∅ : gmap string bool).
    induction Hts as [|t ts Ht _ IH]; intros m; [done|]. cbn [skipDuplicatesFrom].
    case_match; constructor; by rewrite ?Hskip.
Qed.

Lemma runStages_semicolon ss p p' :
  runStages findTemplateMultiline prototypeAndCodeDontMatch ss p = Some p' →
  Forall (λ t, endsWithSemicolon (Prototype t)) (tags p) →
  Forall (λ t, endsWithSemicolon (Prototype t)) (tags p').
Proof.
  unfold runStages. revert p. induction ss as [|stage ss IH]; intros p Hrun Hin;
    cbn [foldM] in Hrun; [by simplify_eq|].
  destruct (runStage _ _ stage p) as [p1|] eqn:Hstage; [|done].
  cbn [mbind option_bind] in Hrun. apply (IH p1 Hrun). by eapply runStage_semicolon.
Qed.

Lemma removeSpacesAndTabs_app s t :
  removeSpacesAndTabs (s +:+ t) = removeSpacesAndTabs s +:+ removeSpacesAndTabs t.
Proof. unfold removeSpacesAndTabs. by rewrite !Replace_byte, !withoutByte_app. Qed.

(** X10 — Every declaration is closed.  When the declarations the parser
    holds end with a semicolon, so does the declaration of every tag [Parse]
    returns, decoded or rebuilt from a template.  Normalising such a
    declaration with [removeSpacesAndTabs] and then [removeTralingSemicolon]
    does not panic, and gives the declaration without its semicolon, blanks
    and tabs. *)
Theorem declarations_are_closed p ctagsOutput mainFile' decoded :
  decode ctagsOutput = Some decoded →
  Forall (λ t, endsWithSemicolon (Prototype t)) (tags p) →
  ∃ out p',
    Parse findTemplateMultiline prototypeAndCodeDontMatch p ctagsOutput mainFile'
      = Some (out, p')
    ∧ Forall (λ t, ∃ body,
                Prototype t = body +:+ ";"
                ∧ removeTralingSemicolon (removeSpacesAndTabs (Prototype t))
                  = Some (removeSpacesAndTabs body)) out.
Proof.
  intros Hdec Hheld.
  destruct (Parse_run findTemplateMultiline prototypeAndCodeDontMatch p ctagsOutput
              mainFile' decoded Hdec) as (p' & HParse & Hrun & _).
  exists (tags p'), p'. split; [done|].
  assert (Forall (λ t, endsWithSemicolon (Prototype t)) (tags p')) as Hclosed.
  { eapply runStages_semicolon; [exact Hrun|]. cbn [tags].
    apply Forall_app. split; [done|]. apply decode_spec in Hdec as [-> _].
    apply Forall_fmap, Forall_forall. intros row _. apply decodeSpec_semicolon. }
  eapply Forall_impl; [exact Hclosed|]. intros t [body Hbody]. exists body.
  split; [done|]. rewrite Hbody, removeSpacesAndTabs_app.
  unfold removeTralingSemicolon.
  replace (len (removeSpacesAndTabs body +:+ removeSpacesAndTabs ";") - 1)
    with (len (removeSpacesAndTabs body))
    by (rewrite len_app; change (len (removeSpacesAndTabs ";")) with 1; lia).
  apply sliceTo_app.
Qed.

(** *** Every declaration survives once *)

(** X11 — The duplicate resolver loses no declaration.  For every tag that
    is not suppressed when [skipDuplicates] starts there is a tag at the same
    place or before it with the same declaration that [skipDuplicates] leaves
    as it was, unsuppressed. *)
Theorem skipDuplicates_keeps_one_of_each p i t :
  tags p !! i = Some t →
  SkipMe t = false →
  ∃ j u, (j ≤ i)%nat ∧ tags p !! j = Some u ∧ Prototype u = Prototype t
         ∧ SkipMe u = false ∧ tags (skipDuplicates p) !! j = Some u.
Proof.
  revert t. induction i as [i IH] using lt_wf_ind. intros t Ht Hs.
  cbn [skipDuplicates withTags tags] in *.
  pose proof (skipDuplicatesFrom_lookup _ _ _ Ht) as Hout. rewrite Hs in Hout.
  destruct (mapIndex (definedAfter ∅ (take i (tags p))) (Prototype t)) eqn:Hseen.
  - apply definedAfter_spec in Hseen as [Hempty|(u & Hu & Hsu & Hpu)].
    { by rewrite mapIndex_empty in Hempty. }
    apply list_elem_of_lookup_1 in Hu as [j Hj]. apply lookup_take_Some in Hj as [Hj Hlt].
    destruct (IH j Hlt u Hj Hsu) as (k & v & Hk & Hv & Hpv & Hsv & Hkept).
    exists k, v. repeat split; [lia|done|congruence|done|done].
  - exists i, t. by repeat split.
Qed.

(** *** A buffer without rows *)

(** X12 — A blank buffer.  When every line of the buffer is empty or white
    space, a parser without tags returns the empty list of tags and is left
    without tags; no row is decoded, so nothing can panic. *)
Theorem blank_buffer_gives_no_tags p ctagsOutput mainFile' :
  tags p = [] →
  Forall (λ row, TrimSpace row = "") (Split ctagsOutput newline) →
  Parse findTemplateMultiline prototypeAndCodeDontMatch p ctagsOutput mainFile'
    = Some ([], mkParser [] mainFile').
Proof.
  intros Hfresh Hblank.
  assert (removeEmpty (Split ctagsOutput newline) = []) as Hrows.
  { unfold removeEmpty. induction Hblank as [|row rows Hrow _ IH]; [done|].
    cbn [fmap list_fmap]. rewrite Hrow, filter_cons_False; [done|]. by vm_compute. }
  rewrite Parse_stages. unfold decode. rewrite Hrows, Hfresh. reflexivity.
Qed.

End Outcome.

(** ** Worked examples

    The properties above hold for any two collaborators.  The examples run
    the parser with a reader of multi-line templates that returns the snippet
    of the tag, and with a consistency filter that accepts every tag. *)

Definition snippetOnly (tag : CTag) : string := Code tag.
Definition acceptAll (_ : Path) (_ : CTag) : bool := false.

(** [&CTagsParser{}] *)
Definition newParser : CTagsParser := mkParser [] "".

Definition quote : string := String "034"%char "".

(** the fields of a row, joined by tabs; the rows of a buffer, each ended by
    a newline *)
Definition tabbed (fields : list string) : string :=
  match fields with
  | [] => ""
  | f :: fields' => foldl (λ acc g, acc +:+ String tab g) f fields'
  end.
Definition lines (rows : list string) : string :=
  foldr (λ r acc, r +:+ String newline acc) "" rows.

(** the two rows of the end-to-end scenario of the specification *)
Definition fooFunctionRow : string :=
  tabbed ["foo"; "sketch.ino"; "kind:function"; "line:3"; "returntype:void";
          "signature:()"; "/^void foo() {$/;" +:+ quote].
Definition fooPrototypeRow : string :=
  tabbed ["foo"; "sketch.ino"; "kind:prototype"; "line:1"; "returntype:void";
          "signature:()"; "/^void foo();$/;" +:+ quote].

Definition fooFunction : CTag :=
  mkCTag "foo" "function" 3 "void foo() {" "" "" "" "sketch.ino" "" false "()"
    "void foo();" "".
Definition fooPrototype : CTag :=
  mkCTag "foo" "prototype" 1 "void foo();" "" "" "" "sketch.ino" "" false "()"
    "void foo();" "".

Definition barRow (line : string) : string :=
  tabbed ["bar"; "sketch.ino"; "/^int bar(int x) {$/;" +:+ quote; "kind:function";
          "line:" +:+ line; "signature:(int)"; "returntype:int"].
Definition bar (line : Z) : CTag :=
  mkCTag "bar" "function" line "int bar(int x) {" "" "" "" "sketch.ino" "" false "(int)"
    "int bar(int);" "".

Definition addRow : string :=
  tabbed ["add"; "sketch.ino"; "/^template <typename T> T add(T a, T b) {$/;" +:+ quote;
          "kind:function"; "line:1"; "signature:(T a, T b)"; "returntype:templateT"].
Definition add : CTag :=
  mkCTag "add" "function" 1 "template <typename T> T add(T a, T b) {" "" "" ""
    "sketch.ino" "" false "(T a, T b)" "templateT add(T a, T b);" "".

Definition counterRow : string :=
  tabbed ["counter"; "sketch.ino"; "kind:variable"; "line:7"].
Definition counter : CTag :=
  mkCTag "counter" "variable" 7 "" "" "" "" "sketch.ino" "" false "" " counter;" "".

Definition methodRow : string :=
  tabbed ["run"; "sketch.ino"; "kind:function"; "line:9"; "class:Motor";
          "signature:()"; "returntype:void"].
Definition method : CTag :=
  mkCTag "run" "function" 9 "" "Motor" "" "" "sketch.ino" "" false "()" "void run();" "".

(** what the caller sees of a run: kind, declaration and [SkipMe] of each tag *)
Definition outcome (result : option (list CTag * CTagsParser))
  : option (list (string * string * bool)) :=
  match result with
  | Some (out, _) => Some ((λ t, (Kind t, Prototype t, SkipMe t)) <$> out)
  | None => None
  end.

Example decode_scenario :
  decode (lines [fooFunctionRow; fooPrototypeRow]) = Some [fooFunction; fooPrototype].
Proof. by vm_compute. Qed.

Example decode_bars :
  decode (lines [barRow "3"; barRow "8"; barRow "12"]) = Some [bar 3; bar 8; bar 12].
Proof. by vm_compute. Qed.

Example decode_mixed :
  decode (lines [counterRow; ""; methodRow; addRow]) = Some [counter; method; add].
Proof. by vm_compute. Qed.

Example rows_mixed :
  removeEmpty (Split (lines [counterRow; ""; methodRow; addRow]) newline)
  = [counterRow; methodRow; addRow].
Proof. by vm_compute. Qed.

(** The end-to-end scenario: the tag of kind [prototype] is not kept, it
    comes out suppressed like the function tag it shadows. *)
Lemma shadowing_scenario :
  outcome (Parse snippetOnly acceptAll newParser
             (lines [fooFunctionRow; fooPrototypeRow]) "sketch.ino")
  = Some [("function", "void foo();", true); ("prototype", "void foo();", true)].
Proof. by vm_compute. Qed.

Lemma shadowing_suppresses_both_witness :
  ∃ out p',
    Parse snippetOnly acceptAll newParser
      (lines [fooFunctionRow; fooPrototypeRow]) "sketch.ino" = Some (out, p')
    ∧ origin <$> out = origin <$> [fooFunction; fooPrototype]
    ∧ SkipMe <$> out = [true; true]
    ∧ Prototype <$> out = ["void foo();"; "void foo();"].
Proof.
  apply (shadowing_suppresses_both snippetOnly acceptAll newParser
           (lines [fooFunctionRow; fooPrototypeRow]) "sketch.ino"
           [fooFunction; fooPrototype] fooPrototype fooFunction);
    [reflexivity|exact decode_scenario|by right|reflexivity..].
Defined.

(** The snippet of the specification: the declaration keeps the blank that
    stands before the brace. *)
Lemma template_scenario :
  outcome (Parse snippetOnly acceptAll newParser (lines [addRow]) "sketch.ino")
  = Some [("function", "template <typename T> T add(T a, T b) ;", false)]
  ∧ "template <typename T> T add(T a, T b) ;" ≠ "template <typename T> T add(T a, T b);".
Proof. split; [by vm_compute|done]. Qed.

Lemma template_from_snippet_witness :
  ∃ p' decl,
    addPrototypes snippetOnly (mkParser [add] "sketch.ino") = Some p'
    ∧ tags p' !! 0%nat = Some (withPrototype decl add)
    ∧ snippetDeclaration (Code add) decl
    ∧ (Code add = "template <typename T> T add(T a, T b) {" →
       decl = "template <typename T> T add(T a, T b) ;").
Proof.
  apply (template_from_snippet snippetOnly (mkParser [add] "sketch.ino") 0 add);
    reflexivity.
Defined.

(** A row without a tab, and a row whose closing marker comes first: the
    decoder panics, and [Parse] with it.  The rows are trimmed before they
    are decoded, so a line that ends with a tab and a blank loses its only
    tab and panics as well. *)
Lemma panic_scenario :
  parseTag "foo" = None
  ∧ Parse snippetOnly acceptAll newParser (lines ["foo"]) "sketch.ino" = None
  ∧ parseTag (tabbed ["foo"; "sketch.ino"; "$/;"; "/^"]) = None
  ∧ Parse snippetOnly acceptAll newParser (lines [tabbed ["foo"; " "]]) "sketch.ino"
    = None.
Proof. by vm_compute. Qed.

Lemma decodable_rows_never_panic_witness :
  ∃ out p',
    Parse snippetOnly acceptAll newParser
      (lines [counterRow; ""; methodRow; addRow]) "sketch.ino" = Some (out, p')
    ∧ origin <$> out =
        origin <$> (tags newParser
                    ++ (decodeSpec <$> removeEmpty
                          (Split (lines [counterRow; ""; methodRow; addRow]) newline)))
    ∧ ∀ row, row ∈ removeEmpty (Split (lines [counterRow; ""; methodRow; addRow]) newline) →
        ∃ tag, parseTag row = Some tag
          ∧ tag = decodeSpec row
          ∧ SkipMe tag = false
          ∧ let fields := drop 2 (Split row tab) in
            (absent "kind" fields → Kind tag = "")
            ∧ (absent "line" fields → Line tag = 0)
            ∧ (absent "typeref" fields → Typeref tag = "")
            ∧ (absent "signature" fields → Signature tag = "")
            ∧ (absent "class" fields → Class tag = "")
            ∧ (absent "struct" fields → Struct tag = "")
            ∧ (absent "namespace" fields → Namespace tag = "").
Proof.
  apply (decodable_rows_never_panic snippetOnly acceptAll newParser
           (lines [counterRow; ""; methodRow; addRow]) "sketch.ino").
  rewrite rows_mixed. repeat constructor.
Defined.

Lemma unknown_kind_suppressed_witness :
  ∃ out p' t',
    Parse snippetOnly acceptAll newParser
      (lines [counterRow; ""; methodRow; addRow]) "sketch.ino" = Some (out, p')
    ∧ out !! 0%nat = Some t' ∧ origin t' = origin counter ∧ SkipMe t' = true.
Proof.
  apply (unknown_kind_suppressed snippetOnly acceptAll newParser
           (lines [counterRow; ""; methodRow; addRow]) "sketch.ino"
           [counter; method; add] 0 counter);
    [exact decode_mixed|reflexivity|done..].
Defined.

Lemma scoped_tag_suppressed_witness :
  ∃ out p' t',
    Parse snippetOnly acceptAll newParser
      (lines [counterRow; ""; methodRow; addRow]) "sketch.ino" = Some (out, p')
    ∧ out !! 1%nat = Some t' ∧ origin t' = origin method ∧ SkipMe t' = true.
Proof.
  apply (scoped_tag_suppressed snippetOnly acceptAll newParser
           (lines [counterRow; ""; methodRow; addRow]) "sketch.ino"
           [counter; method; add] 1 method);
    [exact decode_mixed|reflexivity|by left].
Defined.

(** a consistency filter that rejects every tag *)
Definition rejectAll (_ : Path) (_ : CTag) : bool := true.

Definition barMethodRow (line : string) : string :=
  tabbed ["bar"; "sketch.ino"; "/^int bar(int x) {$/;" +:+ quote; "kind:function";
          "line:" +:+ line; "class:Motor"; "signature:(int)"; "returntype:int"].

(** Three function tags with the declaration [int bar(int);]: when the
    consistency filter rejects the first none is kept, and none is kept when
    the three are in a class. *)
Lemma duplicates_scenario :
  outcome (Parse snippetOnly rejectAll newParser
             (lines [barRow "3"; barRow "8"; barRow "12"]) "sketch.ino")
  = Some [("function", "int bar(int);", true); ("function", "int bar(int);", true);
          ("function", "int bar(int);", true)]
  ∧ outcome (Parse snippetOnly acceptAll newParser
               (lines [barMethodRow "3"; barMethodRow "8"; barMethodRow "12"])
               "sketch.ino")
    = Some [("function", "int bar(int);", true); ("function", "int bar(int);", true);
            ("function", "int bar(int);", true)].
Proof. by vm_compute. Qed.

Lemma duplicates_keep_first_witness :
  ∃ out p',
    Parse snippetOnly acceptAll newParser
      (lines [barRow "3"; barRow "8"; barRow "12"]) "sketch.ino" = Some (out, p')
    ∧ origin <$> out = origin <$> [bar 3; bar 8; bar 12]
    ∧ SkipMe <$> out = [acceptAll "sketch.ino" (plainModifiers (bar 3)); true; true]
    ∧ Prototype <$> out = ["int bar(int);"; "int bar(int);"; "int bar(int);"].
Proof.
  apply (duplicates_keep_first snippetOnly acceptAll newParser
           (lines [barRow "3"; barRow "8"; barRow "12"]) "sketch.ino"
           (bar 3) (bar 8) (bar 12));
    [reflexivity|exact decode_bars|by repeat constructor].
Defined.



Lemma Parse_preserves_order_witness :
  ∃ out p',
    Parse snippetOnly acceptAll newParser
      (lines [counterRow; ""; methodRow; addRow]) "sketch.ino" = Some (out, p')
    ∧ out = tags p'
    ∧ [counter; method; add] =
        decodeSpec <$> removeEmpty (Split (lines [counterRow; ""; methodRow; addRow]) newline)
    ∧ origin <$> out = origin <$> (tags newParser ++ [counter; method; add])
    ∧ origin <$> kept out `sublist_of` origin <$> (tags newParser ++ [counter; method; add])
    ∧ ∀ stage q,
        ∃ q', runStage snippetOnly acceptAll stage q = Some q'
              ∧ origin <$> tags q' = origin <$> tags q.
Proof.
  apply (Parse_preserves_order snippetOnly acceptAll newParser
           (lines [counterRow; ""; methodRow; addRow]) "sketch.ino" [counter; method; add]).
  exact decode_mixed.
Defined.

Lemma first_unsuppressed_is_kept_witness :
  tags (skipDuplicates (mkParser [withSkipMe true (bar 3); bar 8; bar 12] "sketch.ino"))
    !! 1%nat = Some (bar 8)
  ∧ (∀ definedPrototypes u,
       SkipMe u = true → definedAfter definedPrototypes [u] = definedPrototypes).
Proof.
  apply (first_unsuppressed_is_kept
           (mkParser [withSkipMe true (bar 3); bar 8; bar 12] "sketch.ino") 1 (bar 8));
    [reflexivity..|].
  intros [|[|j]] u Hlt Hu; [by simplify_eq/=|lia..].
Defined.

(** *** Examples for the properties of the decoder and of the outcome *)

Definition windowsRow : string :=
  tabbed ["setup"; "C:\\Users\\me\\sketch.ino"; "/^void setup() {$/;" +:+ quote;
          "kind:function"; "line:1"; "signature:()"; "returntype:void"].

Example decode_own :
  decode (lines [counterRow; barRow "3"; methodRow]) = Some [counter; bar 3; method].
Proof. by vm_compute. Qed.

Example blank_rows :
  Split (lines ["  "; ""; String tab ""]) newline = ["  "; ""; String tab ""; ""].
Proof. by vm_compute. Qed.

Lemma name_and_file_decoded_witness :
  ∃ tag, parseTag windowsRow = Some tag
         ∧ FunctionName tag = "setup" ∧ Filename tag = "C:\Users\me\sketch.ino".
Proof.
  apply (name_and_file_decoded "setup" "C:\Users\me\sketch.ino"
           (String tab ("/^void setup() {$/;" +:+ quote +:+ String tab
              ("kind:function" +:+ String tab ("line:1" +:+ String tab
              ("signature:()" +:+ String tab "returntype:void")))))
           windowsRow);
    [reflexivity|reflexivity|right; by eexists|by vm_compute|by vm_compute].
Defined.

Lemma code_between_markers_witness :
  ∃ tag, parseTag windowsRow = Some tag ∧ Code tag = "void setup() {".
Proof.
  apply (code_between_markers
           ("setup" +:+ String tab ("C:\\Users\\me\\sketch.ino" +:+ String tab ""))
           "void setup() {"
           (quote +:+ String tab ("kind:function" +:+ String tab ("line:1" +:+ String tab
              ("signature:()" +:+ String tab "returntype:void"))))
           windowsRow);
    [by vm_compute|reflexivity|reflexivity|reflexivity|vm_compute; lia].
Defined.

Lemma kept_tags_are_free_functions_witness :
  ∃ out p',
    Parse snippetOnly acceptAll newParser
      (lines [counterRow; ""; methodRow; addRow]) "sketch.ino" = Some (out, p')
    ∧ Forall (λ t, Kind t = KIND_FUNCTION ∧ Class t = "" ∧ Struct t = ""
                   ∧ Namespace t = "") (kept out).
Proof.
  apply (kept_tags_are_free_functions snippetOnly acceptAll newParser
           (lines [counterRow; ""; methodRow; addRow]) "sketch.ino" [counter; method; add]).
  exact decode_mixed.
Defined.

Lemma kept_declarations_distinct_witness :
  ∃ out p',
    Parse snippetOnly acceptAll newParser
      (lines [barRow "3"; barRow "8"; barRow "12"]) "sketch.ino" = Some (out, p')
    ∧ NoDup (Prototype <$> kept out).
Proof.
  apply (kept_declarations_distinct snippetOnly acceptAll newParser
           (lines [barRow "3"; barRow "8"; barRow "12"]) "sketch.ino"
           [bar 3; bar 8; bar 12]).
  exact decode_bars.
Defined.

Lemma fresh_function_is_kept_witness :
  ∃ out p',
    Parse snippetOnly acceptAll newParser
      (lines [counterRow; barRow "3"; methodRow]) "sketch.ino" = Some (out, p')
    ∧ out !! 1%nat = Some (plainModifiers (bar 3)).
Proof.
  apply (fresh_function_is_kept snippetOnly acceptAll newParser
           (lines [counterRow; barRow "3"; methodRow]) "sketch.ino"
           [counter; bar 3; method] 1 (bar 3));
    [exact decode_own|reflexivity..| |reflexivity].
  intros [|[|[|j]]] u Hu Hj; [|done| |done]; by simplify_eq/=.
Defined.

Lemma synthesizer_on_plain_declarations_witness :
  ∃ p', addPrototypes snippetOnly
          (mkParser [bar 3; withSkipMe true (bar 8)] "sketch.ino") = Some p'
        ∧ tags p' = (λ t, if SkipMe t then t else plainModifiers t)
                      <$> tags (mkParser [bar 3; withSkipMe true (bar 8)] "sketch.ino")
        ∧ addPrototypes snippetOnly p' = Some p'.
Proof.
  apply (synthesizer_on_plain_declarations snippetOnly
           (mkParser [bar 3; withSkipMe true (bar 8)] "sketch.ino")).
  by repeat constructor.
Defined.

Lemma declarations_are_closed_witness :
  ∃ out p',
    Parse snippetOnly acceptAll newParser
      (lines [counterRow; ""; methodRow; addRow]) "sketch.ino" = Some (out, p')
    ∧ Forall (λ t, ∃ body,
                Prototype t = body +:+ ";"
                ∧ removeTralingSemicolon (removeSpacesAndTabs (Prototype t))
                  = Some (removeSpacesAndTabs body)) out.
Proof.
  apply (declarations_are_closed snippetOnly acceptAll newParser
           (lines [counterRow; ""; methodRow; addRow]) "sketch.ino" [counter; method; add]);
    [exact decode_mixed|constructor].
Defined.

Lemma skipDuplicates_keeps_one_of_each_witness :
  ∃ j u, (j ≤ 2)%nat
         ∧ tags (mkParser [withSkipMe true (bar 3); bar 8; bar 12] "sketch.ino") !! j
           = Some u
         ∧ Prototype u = Prototype (bar 12)
         ∧ SkipMe u = false
         ∧ tags (skipDuplicates
                   (mkParser [withSkipMe true (bar 3); bar 8; bar 12] "sketch.ino")) !! j
           = Some u.
Proof.
  apply (skipDuplicates_keeps_one_of_each
           (mkParser [withSkipMe true (bar 3); bar 8; bar 12] "sketch.ino") 2 (bar 12));
    reflexivity.
Defined.

Lemma blank_buffer_gives_no_tags_witness :
  Parse snippetOnly acceptAll newParser (lines ["  "; ""; String tab ""]) "sketch.ino"
  = Some ([], mkParser [] "sketch.ino").
Proof.
  apply (blank_buffer_gives_no_tags snippetOnly acceptAll newParser
           (lines ["  "; ""; String tab ""]) "sketch.ino"); [reflexivity|].
  rewrite blank_rows. by repeat constructor.
Defined.

Definition barRowReordered : string :=
  tabbed ["bar"; "sketch.ino"; "returntype:int"; "line:3"; "kind:function";
          "/^int bar(int x) {$/;" +:+ quote; "signature:(int)"].

Lemma field_order_is_immaterial_witness :
  ∃ tag tag', parseTag (barRow "3") = Some tag ∧ parseTag barRowReordered = Some tag'
              ∧ withCode "" tag' = withCode "" tag.
Proof.
  apply (field_order_is_immaterial (barRow "3") barRowReordered "bar" "sketch.ino"
           ["/^int bar(int x) {$/;" +:+ quote; "kind:function"; "line:3"; "signature:(int)";
            "returntype:int"]
           ["returntype:int"; "line:3"; "kind:function"; "/^int bar(int x) {$/;" +:+ quote;
            "signature:(int)"]);
    [by vm_compute|by vm_compute| | |by vm_compute|by vm_compute].
  - apply (Permutation_trans (l' := ["returntype:int"; "/^int bar(int x) {$/;" +:+ quote;
                                     "kind:function"; "line:3"; "signature:(int)"])).
    + symmetry. apply (Permutation_cons_append
                         ["/^int bar(int x) {$/;" +:+ quote; "kind:function"; "line:3";
                          "signature:(int)"] "returntype:int").
    + constructor. solve_Permutation.
  - intros key. cbn [omap list_omap]. unfold fieldOf. cbn [cut Ascii.eqb Bool.eqb].
    repeat match goal with
      | |- context [String.eqb ?k key] => destruct (String.eqb_spec k key) as [<-|?]
      end; vm_compute; lia.
Defined.
